(* ===== verification/_CoqProject ===== *)
-Q . S2P
Prelude.v
Distance.v
Quantize.v
QuantScale.v
Candidates.v
GraphStore.v
Engine.v
Round.v
Search.v
Pages.v
Render.v
Session.v
Schedules.v
