(* ===== verification/Prelude.v ===== *)
(** * A verification development for portable-hnsw

    The repository is a browser page, in two variants, that answers a text
    query with the K nearest passages of a pre-built HNSW index (a
    hierarchical navigable small-world graph) stored as parquet tables and
    queried through DuckDB-wasm:
    - [src/scripts/vectordb_utils.js] searches float vectors;
    - [src/scripts/vectordb_utils_quantized.js] is the same page with
      [quantizeVector] and a dequantizing [euclideanDistanceSquared].

    The parts of the program and how they interact:
    - DistanceMetric ([euclideanDistanceSquared] in both files): squared
      Euclidean distance, throwing on a length mismatch;
    - QuantizationCodec ([quantizeVector], quantized file): min/max
      normalisation to [-1, 1], scaling by [2^bits - 1], [Math.floor], and
      the store into an [Int8Array]/[Int16Array]/[Int32Array];
    - CandidateCache (the JS object [cache] of [searchWithSql]): node id to
      [{data, distance}];
    - GraphStore (the SQL queries of [searchWithSql]): node count, a random
      entry node, and the neighbour query over [edges.parquet] joined with
      [nodes.parquet];
    - AnnSearchEngine ([searchWithSql] up to [ids]): the beam search
      descending from layer [floor(log2 count)] to 0;
    - SearchSession ([searchWithSql]'s document fetch, [performSearch],
      [loadIndex], the event handlers): the page that calls the engine.

    Files of the development, in dependency order:
    - [Prelude]: this header; the [outcome] monad of the development (a
      result, a thrown JavaScript exception, or exhaustion of the fuel of
      a model of a [while] loop) with its notation in [outcome_scope]; the
      boolean strict order [Qltb] on rationals; [promise_all] for
      [Promise.all] over calls that may throw; shared lemmas on lists,
      strings and finite sets; the hint database [hnsw] and the tactic
      [outcome_inv].
    - [Distance]: Module [Plain] and Module [Quantized], the two
      [euclideanDistanceSquared] functions, with symmetry, non-negativity,
      zero on equal vectors, the length-mismatch error, and the refinement
      of the quantized distance by the plain distance of dequantized
      vectors.
    - [Quantize]: the JavaScript numbers the normalisation can produce
      ([number]: finite, NaN, infinities), [ToInt] of the typed-array
      store with its wrap-around, and [quantizeVector]; length, the
      constant-vector case, exactness for widths that fit, and the
      overflow at the default of 8 bits.
    - [QuantScale]: the equality of JavaScript number values as a setoid,
      with [Proper] instances for the operations of [quantizeVector];
      invariance of [quantizeVector] under positive affine maps, the error
      bound of dequantization against the normalised vector, and the
      consequence that the quantized distance ignores the scale.
    - [Candidates]: the [[nodeId, dist]] pairs and
      [currentBest.sort((a, b) => a[1] - b[1])] as a stable insertion sort,
      with permutation, sortedness and stability.
    - [GraphStore]: the interface the engine needs from the database (Class
      [GraphStore] with the laws [GraphStoreSpec]), and the tables instance
      that computes the SQL queries of the source over lists of rows.
    - [Engine]: Section [Engine], [searchWithSql] up to the returned ids,
      generic in the vector type, the distance and the store: the cache
      and its JavaScript property keys (the decimal text of an id, stdpp's
      [pretty], and the text of a pair), read by the filter of a round,
      with the proof that the filter keeps every candidate; the SQL lists
      ([sql_list]), the
      admission test ([admit_test]), one neighbour ([visit_neighbor]), one
      round of [while (improved)] ([round]), the loop with fuel
      ([layer_pass]), the layer loop ([descend]) and [searchWithSql_ids].
    - [Round]: the invariant of a round: the invariant of the neighbour
      loop ([visit_inv]), the invariant of the search state
      ([search_inv]: no duplicate ids, sorted, at most [max 1 ef]
      candidates, true distances, a sound cache) and its preservation by
      [round], which also only grows the cache, and strictly when it
      reports an improvement; [round] returns when every distance is
      defined.
    - [Search]: the abstract contract [ranked_answer] and its refinement
      by the code ([search_refines]), termination with the fuel chosen
      ([search_total]), and the bounds on the result.
    - [Pages]: the two pages' [searchWithSql] with the document fetch, the
      concrete tables, and the theorems that evaluate the search: the
      example of the spec, [ef = 0], and the findings
      (admission against the last element, distances read as ids in the
      SQL lists).
    - [Render]: [output.innerHTML = out.map((t) => `<p>${t}</p>`).join('')]
      as [render]; it determines the passages when they contain no [<],
      and collides otherwise (the texts are not escaped).
    - [Session]: the page around the engine: the globals and the status
      line, [performSearch], [loadIndex], the debounce and the handlers,
      with every pending
      asynchronous call as a suspended task and the page as a step
      function [exec] over user events, completions and rejections of
      the awaited operations, and [run] over a list of events; the page of the
      quantized file is the same model with [searchWithSql_quantized]
      ([exec_quantized], [run_quantized]), since its page code differs
      only in the names of the files; the tactics of symbolic execution.
    - [Schedules]: the theorems on the schedules of the page: a search
      run alone, the schedules of overlapping calls that show a stale
      result, run a search on a closed connection, mix two datasets, and
      leave the search button disabled for good, a fetch that rejects
      during a load, which strands the page with the status reading
      "Loading HNSW Index...", the debounce of instant search
      and its timer surviving the [blogs] link, and a bisimulation
      between two runs of the page whose encoders differ only by what
      [quantizeVector] forgets.

    Numbers.  JavaScript numbers are modelled as exact rationals [Q]
    (distances, float32 vector components) and integers [Z] (node ids,
    quantized components); rounding of IEEE doubles is not modelled, so the
    theorems hold for the exact-arithmetic reading of the code.  Node ids
    are integers as in the tables.  [k] and [ef] are natural numbers (the
    page passes 5 and 20).

    Fuel.  The [while (improved)] loop of a layer is modelled with fuel
    [S (length nodes)] per layer: every round that sets [improved] adds at
    least one new node id to the cache, and the cache only holds ids of
    the node table, so a layer runs at most [length nodes + 1] rounds; the
    theorem [Search.search_total] shows the fuel never runs out.

    Findings, proved in [Quantize] and [Pages]: with the default of 8
    bits the maximum of a vector is stored as [-1] and the minimum as [1]
    ([Int8Array] wraps 255 and -255); a constant vector is divided by zero
    and stored as zeros; the filter of a round never filters (its elements
    are pairs, not ids); the SQL lists hold distances as well as ids; the
    admission test compares with the last element of [currentBest], not
    the worst; [ef = 0] returns the entry node; the result of the spec's
    example depends on the random entry node; documents are fetched by
    row OFFSET equal to the node id.

    Findings proved in [Schedules]: a search from the button that throws
    leaves [search.disabled] set (no try/finally), which also stops
    instant search, and the status line reading "Searching HNSW
    Index..." with nothing running; a storage failure while a new index
    loads is shown nowhere, leaves the button disabled and the status at
    "Loading HNSW Index...", and [cachedPath] already names a path whose
    files were never registered; a path change closes the connection an earlier call
    is still using; the blogs link opens a second connection without
    closing the first and replaces the registered index under a pending
    search; overlapping searches show whichever completes last; the
    blogs link turns instant mode off but leaves an armed instant search
    to fire on the blogs dataset.  Proved in [Render]: the passages are
    written into [innerHTML] unescaped, and a missing row shows as
    "undefined".  On the
    quantized page the query is seen only through its 8-bit array, so a
    text and the same vector at another scale show the same documents.

    Not modelled: the per-layer progress message a [LengthMismatch]
    inside [searchWithSql]'s layer loop would leave on the status line
    (see [Session]), the transformer encoder
    ([embed] is a function [enc] of the text), the bytes of the fetched
    files, the awaits inside [searchWithSql] (one step in [Session]), the
    DuckDB set-up at the top of both files (bundle, worker, instantiate),
    a [NULL] in the [text] column of [docs.parquet] (printed [null]), and
    the text of a non-integral distance in a property key (a fraction in
    [Engine.number_text]; only the comma before it matters).  Rounding of
    IEEE doubles is not modelled either (see Numbers). *)

From stdpp Require Export base list gmap.
From stdpp Require Import strings.
From Stdlib Require Export QArith Qround Qminmax ZArith Lia Lra Psatz Sorted.

Declare Scope outcome_scope.
Delimit Scope outcome_scope with outcome.

(** ** Exceptions and the outcome monad *)

(** The exceptions the modelled code can raise:
    [LengthMismatch] is [new Error("Arrays must be of the same length")];
    [TypeError] is reading a property of [undefined];
    [DatabaseError] is a DuckDB query that fails: on a closed connection,
    on a file that is not registered, or with a negative [OFFSET]. *)
Inductive exn :=
| LengthMismatch
| TypeError
| DatabaseError.

(** A computation of the model returns a value, throws, or (for a loop
    modelled with fuel) runs out of fuel. *)
Inductive outcome (A : Type) : Type :=
| Ret (a : A)
| Throw (e : exn)
| OutOfFuel.
Arguments Ret {A} a.
Arguments Throw {A} e.
Arguments OutOfFuel {A}.

Definition obind {A B} (m : outcome A) (k : A -> outcome B) : outcome B :=
  match m with
  | Ret a => k a
  | Throw e => Throw e
  | OutOfFuel => OutOfFuel
  end.

Notation "x <- m ;; k" := (obind m (fun x => k))
  (at level 100, m at level 99, right associativity) : outcome_scope.

Open Scope outcome_scope.

(** [for (const x of l) body] where the body may throw: the first
    exception aborts the loop. *)
Fixpoint ofold_left {A B} (f : B -> A -> outcome B) (l : list A) (b : B)
  : outcome B :=
  match l with
  | [] => Ret b
  | x :: l' => b' <- f b x ;; ofold_left f l' b'
  end.

(** [await Promise.all(l.map(async (x) => ...))] over calls that may
    throw: the results in the order of [l], or the exception of the first
    call that throws. *)
Fixpoint promise_all {A B} (f : A -> outcome B) (l : list A) : outcome (list B) :=
  match l with
  | [] => Ret []
  | x :: l' => y <- f x ;; ys <- promise_all f l' ;; Ret (y :: ys)
  end.

Lemma obind_Ret_inv {A B} (m : outcome A) (k : A -> outcome B) b :
  obind m k = Ret b -> exists a, m = Ret a /\ k a = Ret b.
Proof. destruct m; simpl; try discriminate; eauto. Qed.

Lemma obind_not_fuel {A B} (m : outcome A) (k : A -> outcome B) :
  m <> OutOfFuel -> (forall a, m = Ret a -> k a <> OutOfFuel) ->
  obind m k <> OutOfFuel.
Proof. destruct m; simpl; eauto; discriminate. Qed.

Ltac outcome_inv H :=
  match type of H with
  | obind ?m ?k = Ret _ =>
      let a := fresh "a" in let Hm := fresh "Hm" in let Hk := fresh "Hk" in
      destruct (obind_Ret_inv m k _ H) as (a & Hm & Hk); clear H; rename Hk into H
  end.

(** An invariant [P] of the loop body is an invariant of the loop. *)
Lemma ofold_left_inv {A B} (P : B -> Prop) (f : B -> A -> outcome B) l b b' :
  (forall b0 x b1, x ∈ l -> P b0 -> f b0 x = Ret b1 -> P b1) ->
  P b -> ofold_left f l b = Ret b' -> P b'.
Proof.
  revert b. induction l as [|x l IH]; simpl; intros b Hf Hb Hrun.
  - by inversion Hrun; subst.
  - outcome_inv Hrun. apply (IH a); eauto.
    + intros b0 y b1 Hy. eapply Hf. by right.
    + eapply Hf; eauto. by left.
Qed.

(** ** Strict order on rationals, as JavaScript's [<] on numbers *)

Definition Qltb (x y : Q) : bool := negb (Qle_bool y x).

Lemma Qltb_iff x y : Qltb x y = true <-> (x < y)%Q.
Proof.
  unfold Qltb. rewrite negb_true_iff.
  split; intros H.
  - apply Qnot_le_lt. intros Hle. apply Qle_bool_iff in Hle. congruence.
  - destruct (Qle_bool y x) eqn:E; [|done].
    apply Qle_bool_iff in E. exfalso. eapply Qlt_not_le; eauto.
Qed.

Lemma Qltb_false x y : Qltb x y = false <-> (y <= x)%Q.
Proof.
  unfold Qltb. rewrite negb_false_iff. apply Qle_bool_iff.
Qed.

(** ** Shared lemmas on lists and finite sets *)

Lemma size_list_to_set_le `{Countable A} (l : list A) :
  size (list_to_set l : gset A) ≤ length l.
Proof.
  induction l as [|x l IH].
  - rewrite list_to_set_nil, size_empty. simpl. lia.
  - rewrite list_to_set_cons, size_union_alt, size_singleton, size_difference_alt.
    simpl. lia.
Qed.

Lemma NoDup_take {A} (l : list A) n : NoDup l -> NoDup (take n l).
Proof.
  intros Hl. eapply sublist_NoDup; [done|]. apply sublist_take.
Qed.

Lemma fold_left_map {A B C} (f : C -> B -> C) (g : A -> B) l c :
  fold_left f (map g l) c = fold_left (fun c x => f c (g x)) l c.
Proof. revert c. induction l; simpl; auto. Qed.

Lemma filter_all_true {A} (f : A -> bool) (l : list A) :
  (forall x, f x = true) -> List.filter f l = l.
Proof. intros Hf. induction l as [|x l IH]; simpl; [done|]. by rewrite Hf, IH. Qed.

(** stdpp makes [String.append] opaque to [simpl]; its two equations. *)
Lemma append_EmptyString b : String.append EmptyString b = b.
Proof. reflexivity. Qed.

Lemma append_String x a b : String.append (String x a) b = String x (String.append a b).
Proof. reflexivity. Qed.

Create HintDb hnsw discriminated.
#[export] Hint Resolve NoDup_take : hnsw.
