(* ===== verification/Distance.v ===== *)
(** * DistanceMetric: the two [euclideanDistanceSquared] functions

    Module [Plain] is [euclideanDistanceSquared] of
    [src/scripts/vectordb_utils.js]; Module [Quantized] is the one of
    [src/scripts/vectordb_utils_quantized.js], which divides every
    component by [2 ** bitsPerDimension - 1] before subtracting.  Both
    throw [LengthMismatch] when the arrays differ in length, and otherwise
    sum [(arr1[i] - arr2[i]) ** 2] from [i = 0] upwards, modelled as a
    [fold_left] over the pairs of components.

    The theorems: symmetry (as an equation of outcomes, errors included),
    non-negativity, zero exactly on component-wise equal vectors, the
    error on a length mismatch, and the refinement of the quantized
    distance by the plain distance of the dequantized vectors. *)

From S2P Require Import Prelude.

Open Scope Q_scope.

(** [x ** 2]. *)
Definition sq (x : Q) : Q := x * x.

(** The loop [for (i = 0; i < arr1.length; i++) sum += f(arr1[i], arr2[i])]
    on arrays of equal length. *)
Definition sum_pairs {A} (f : A -> A -> Q) (l : list (A * A)) : Q :=
  fold_left (fun sum xy => sum + f xy.1 xy.2) l 0.

(** ** Generic lemmas on the summation loop *)

Lemma sq_sub_comm x y : sq (x - y) = sq (y - x).
Proof.
  destruct x as [a b], y as [c d].
  unfold sq, Qminus, Qplus, Qopp, Qmult; simpl.
  f_equal; [ring | by rewrite (Pos.mul_comm b d)].
Qed.

Lemma sq_nonneg x : 0 <= sq x.
Proof. unfold sq. nra. Qed.

Lemma sq_zero x : sq x == 0 <-> x == 0.
Proof. unfold sq. split; intros H; [|rewrite H; ring]. nra. Qed.

Lemma fold_sum_acc {A} (g : A -> Q) l a :
  fold_left (fun sum x => sum + g x) l a == a + fold_left (fun sum x => sum + g x) l 0.
Proof.
  revert a. induction l as [|x l IH]; intros a; simpl; [ring|].
  rewrite (IH (a + g x)), (IH (0 + g x)). ring.
Qed.

Lemma fold_sum_nonneg {A} (g : A -> Q) l :
  (forall x, 0 <= g x) -> 0 <= fold_left (fun sum x => sum + g x) l 0.
Proof.
  intros Hg. induction l as [|x l IH]; simpl; [apply Qle_refl|].
  rewrite fold_sum_acc. specialize (Hg x). lra.
Qed.

Lemma fold_sum_zero {A} (g : A -> Q) l :
  (forall x, 0 <= g x) ->
  fold_left (fun sum x => sum + g x) l 0 == 0 <-> Forall (fun x => g x == 0) l.
Proof.
  intros Hg. induction l as [|x l IH]; simpl.
  - split; [constructor | reflexivity].
  - rewrite fold_sum_acc, Forall_cons, <- IH.
    pose proof (Hg x). pose proof (fold_sum_nonneg g l Hg).
    split; [intros; split|intros []]; lra.
Qed.

Lemma combine_swap {A B} (a : list A) (b : list B) :
  combine b a = map (fun xy => (xy.2, xy.1)) (combine a b).
Proof.
  revert b. induction a as [|x a IH]; intros [|y b]; simpl; auto.
  by rewrite IH.
Qed.

Lemma sum_pairs_comm {A} (f : A -> A -> Q) a b :
  (forall x y, f x y = f y x) ->
  sum_pairs f (combine a b) = sum_pairs f (combine b a).
Proof.
  intros Hf. unfold sum_pairs. rewrite (combine_swap a b), fold_left_map.
  generalize (0 : Q). induction (combine a b) as [|[x y] l IH]; intros s; simpl; auto.
  by rewrite Hf, IH.
Qed.

Lemma Forall2_combine {A} (R : A -> A -> Prop) a b :
  length a = length b ->
  Forall2 R a b <-> Forall (fun xy => R xy.1 xy.2) (combine a b).
Proof.
  revert b. induction a as [|x a IH]; intros [|y b] Hlen; simpl in *;
    try discriminate.
  - split; constructor.
  - rewrite Forall2_cons, Forall_cons, IH; [done | lia].
Qed.

Module Plain.

(** [euclideanDistanceSquared(arr1, arr2)]. *)
Definition euclideanDistanceSquared (arr1 arr2 : list Q) : outcome Q :=
  if negb (Nat.eqb (length arr1) (length arr2)) then Throw LengthMismatch
  else Ret (sum_pairs (fun x y => sq (x - y)) (combine arr1 arr2)).

Lemma euclideanDistanceSquared_Ret arr1 arr2 :
  length arr1 = length arr2 ->
  euclideanDistanceSquared arr1 arr2
  = Ret (sum_pairs (fun x y => sq (x - y)) (combine arr1 arr2)).
Proof.
  intros Hlen. unfold euclideanDistanceSquared. by rewrite Hlen, Nat.eqb_refl.
Qed.

Lemma euclideanDistanceSquared_Ret_inv arr1 arr2 d :
  euclideanDistanceSquared arr1 arr2 = Ret d ->
  length arr1 = length arr2 /\ d = sum_pairs (fun x y => sq (x - y)) (combine arr1 arr2).
Proof.
  unfold euclideanDistanceSquared.
  destruct (Nat.eqb_spec (length arr1) (length arr2)); simpl; [|discriminate].
  intros [= <-]. done.
Qed.

(** The distance is symmetric, as an equation of outcomes: equal
    distances for arrays of equal length and the same error otherwise. *)
Theorem euclideanDistanceSquared_comm arr1 arr2 :
  euclideanDistanceSquared arr1 arr2 = euclideanDistanceSquared arr2 arr1.
Proof.
  unfold euclideanDistanceSquared. rewrite (Nat.eqb_sym (length arr1)).
  destruct (Nat.eqb (length arr2) (length arr1)); simpl; [|done].
  f_equal. apply sum_pairs_comm. intros; apply sq_sub_comm.
Qed.

(** C24: a distance the function returns is non-negative. *)
Theorem euclideanDistanceSquared_nonneg arr1 arr2 d :
  euclideanDistanceSquared arr1 arr2 = Ret d -> 0 <= d.
Proof.
  intros [_ ->]%euclideanDistanceSquared_Ret_inv.
  apply (fold_sum_nonneg (fun xy => sq (xy.1 - xy.2))). intros; apply sq_nonneg.
Qed.

(** C25: a returned distance is zero exactly when the two vectors are
    equal component by component. *)
Theorem euclideanDistanceSquared_zero_iff arr1 arr2 d :
  euclideanDistanceSquared arr1 arr2 = Ret d -> (d == 0 <-> Forall2 Qeq arr1 arr2).
Proof.
  intros [Hlen ->]%euclideanDistanceSquared_Ret_inv.
  rewrite (Forall2_combine _ _ _ Hlen).
  unfold sum_pairs. rewrite (fold_sum_zero (fun xy => sq (xy.1 - xy.2)));
    [|intros; apply sq_nonneg].
  apply Forall_iff. intros xy. rewrite sq_zero. split; intros; lra.
Qed.

(** The distance of a vector to itself is zero. *)
Lemma euclideanDistanceSquared_self arr :
  exists d, euclideanDistanceSquared arr arr = Ret d /\ d == 0.
Proof.
  eexists. rewrite euclideanDistanceSquared_Ret by done. split; [done|].
  unfold sum_pairs. apply (fold_sum_zero (fun xy => sq (xy.1 - xy.2)));
    [intros; apply sq_nonneg|].
  induction arr; constructor; [apply sq_zero; simpl; ring | done].
Qed.

(** C26: the function throws [LengthMismatch] exactly on arrays of
    different lengths, and otherwise returns a distance. *)
Theorem euclideanDistanceSquared_error arr1 arr2 :
  (euclideanDistanceSquared arr1 arr2 = Throw LengthMismatch <->
     length arr1 <> length arr2) /\
  (length arr1 = length arr2 -> exists d, euclideanDistanceSquared arr1 arr2 = Ret d).
Proof.
  unfold euclideanDistanceSquared.
  destruct (Nat.eqb_spec (length arr1) (length arr2)); simpl.
  - split; [split; [discriminate | done] | eauto].
  - split; [done | intros; done].
Qed.

Lemma euclideanDistanceSquared_nonneg_witness :
  exists d, euclideanDistanceSquared [1; 2] [3; 5] = Ret d /\ 0 <= d.
Proof.
  eexists. split; [reflexivity|].
  apply (euclideanDistanceSquared_nonneg [1; 2] [3; 5]). reflexivity.
Defined.

Lemma euclideanDistanceSquared_zero_iff_witness :
  exists d, euclideanDistanceSquared [1; 2] [1; 2] = Ret d /\
            (d == 0 <-> Forall2 Qeq [1; 2] [1; 2]).
Proof.
  eexists. split; [reflexivity|].
  apply (euclideanDistanceSquared_zero_iff [1; 2] [1; 2]). reflexivity.
Defined.

Lemma euclideanDistanceSquared_error_witness :
  euclideanDistanceSquared [1] [1; 2] = Throw LengthMismatch.
Proof. apply (euclideanDistanceSquared_error [1] [1; 2]). simpl. lia. Defined.

End Plain.

Module Quantized.

(** [const scale = 2 ** bitsPerDimension - 1].  The model is meant for
    [bitsPerDimension >= 1] (the code uses the default 8); at 0 the scale
    is 0 and JavaScript divides by zero, which [Q] does not model. *)
Definition scale (bits : nat) : Z := (2 ^ Z.of_nat bits - 1)%Z.

(** [euclideanDistanceSquared(arr1, arr2, bitsPerDimension)] of the
    quantized file: [sum += (arr1[i] / scale - arr2[i] / scale) ** 2]. *)
Definition euclideanDistanceSquared (bits : nat) (arr1 arr2 : list Z) : outcome Q :=
  let s := inject_Z (scale bits) in
  if negb (Nat.eqb (length arr1) (length arr2)) then Throw LengthMismatch
  else Ret (sum_pairs (fun x y => sq (inject_Z x / s - inject_Z y / s))
                      (combine arr1 arr2)).

(** Dequantization of one vector, the division the loop applies to each
    component. *)
Definition dequantize (bits : nat) (v : list Z) : list Q :=
  map (fun x => inject_Z x / inject_Z (scale bits)) v.

Lemma combine_map {A B} (f : A -> B) (a b : list A) :
  combine (map f a) (map f b) = map (fun xy => (f xy.1, f xy.2)) (combine a b).
Proof.
  revert b. induction a as [|x a IH]; intros [|y b]; simpl; auto. by rewrite IH.
Qed.

(** C23: the quantized distance is the plain distance of the dequantized
    vectors: the dequantize-then-compare contract, errors included. *)
Theorem euclideanDistanceSquared_dequantize bits arr1 arr2 :
  euclideanDistanceSquared bits arr1 arr2
  = Plain.euclideanDistanceSquared (dequantize bits arr1) (dequantize bits arr2).
Proof.
  unfold euclideanDistanceSquared, Plain.euclideanDistanceSquared, dequantize.
  rewrite !length_map. destruct (Nat.eqb _ _); simpl; [|done].
  f_equal. unfold sum_pairs. by rewrite combine_map, fold_left_map.
Qed.

(** Integer squared distance of two quantized vectors. *)
Definition int_distance (arr1 arr2 : list Z) : Z :=
  fold_left (fun sum xy => sum + (xy.1 - xy.2) * (xy.1 - xy.2))%Z (combine arr1 arr2) 0%Z.

Lemma fold_quantized_int (s : Z) l qa za :
  s <> 0%Z -> qa == inject_Z za / inject_Z (s * s) ->
  fold_left (fun sum xy => sum + sq (inject_Z xy.1 / inject_Z s - inject_Z xy.2 / inject_Z s)) l qa
  == inject_Z (fold_left (fun sum xy => sum + (xy.1 - xy.2) * (xy.1 - xy.2))%Z l za)
     / inject_Z (s * s).
Proof.
  intros Hs. revert qa za.
  assert (Hsub : forall x y, (x - y = x + - y)%Z) by (intros; lia). induction l as [|[x y] l IH]; intros qa za Hqa; simpl; [done|].
  apply IH. rewrite Hqa. unfold sq. rewrite !Hsub.
  rewrite inject_Z_plus, !inject_Z_mult, !inject_Z_plus, !inject_Z_opp.
  assert (~ inject_Z s == 0) by (rewrite inject_Z_injective with (b := 0%Z); lia).
  field; auto.
Qed.

(** C30: the quantized distance is the integer squared distance of the
    two vectors divided by [scale * scale]. *)
Lemma euclideanDistanceSquared_int bits arr1 arr2 d :
  (1 <= bits)%nat ->
  euclideanDistanceSquared bits arr1 arr2 = Ret d ->
  d == inject_Z (int_distance arr1 arr2) / inject_Z (scale bits * scale bits).
Proof.
  intros Hbits. unfold euclideanDistanceSquared.
  destruct (Nat.eqb _ _); simpl; [|discriminate]. intros [= <-].
  apply fold_quantized_int; [|reflexivity].
  unfold scale. assert (2 ^ 1 <= 2 ^ Z.of_nat bits)%Z by (apply Z.pow_le_mono_r; lia).
  lia.
Qed.

Lemma euclideanDistanceSquared_int_witness :
  exists d, euclideanDistanceSquared 8 [127; 0]%Z [-128; 0]%Z = Ret d /\
    d == inject_Z (int_distance [127; 0]%Z [-128; 0]%Z) / inject_Z (scale 8 * scale 8).
Proof.
  eexists. split; [reflexivity|].
  apply (euclideanDistanceSquared_int 8 [127; 0]%Z [-128; 0]%Z); [lia | reflexivity].
Defined.

End Quantized.
