(* ===== verification/Quantize.v ===== *)
(** * QuantizationCodec: [quantizeVector]

    [quantizeVector(vector, bitsPerDimension = 8)] of
    [src/scripts/vectordb_utils_quantized.js] computes [Math.max] and
    [Math.min] of the vector, normalises each component to [[-1, 1]] with
    [2 * ((vector[i] - minVal) / range) - 1], multiplies by
    [2 ** bitsPerDimension - 1], applies [Math.floor] and stores the result
    into an [Int8Array], [Int16Array] or [Int32Array] chosen by the number
    of bits.

    JavaScript arithmetic on the way can leave the finite numbers: [0 / 0]
    is [NaN] when the vector is constant.  The type [number] holds the
    values the expression can take (finite, [NaN], the two infinities) and
    the operations are JavaScript's on them.  The store into a typed array
    is ECMAScript's [ToInt8] / [ToInt16] / [ToInt32]: [NaN] and the
    infinities become 0, a finite value is truncated and wrapped modulo
    [2^w] into the signed range, which [wrap_signed] writes out.

    The theorems: a constant vector quantizes to zeros (through [NaN], with no
    exception); when [2^bits - 1] fits the array the component is the exact
    floor of the scaled value, monotone in the input; and at the default of
    8 bits (also 16 and 32) the scaled extremes [255] and [-255] wrap, so
    the largest component is stored as [-1] and the smallest as [1]. *)

From S2P Require Import Prelude Distance.

Open Scope Q_scope.

(** ** JavaScript numbers and the operations [quantizeVector] applies *)

Inductive number :=
| Finite (q : Q)
| NaN
| Infinity (negative : bool).

(** [a / b] for finite [a], [b]; the divisor [range] is [maxVal - minVal],
    a [+0] when it is zero, so the sign of an infinity is that of [a]. *)
Definition num_div (a b : Q) : number :=
  if Qeq_bool b 0 then (if Qeq_bool a 0 then NaN else Infinity (Qltb a 0))
  else Finite (a / b).

Definition num_sub (a b : number) : number :=
  match a, b with
  | Finite x, Finite y => Finite (x - y)
  | NaN, _ | _, NaN => NaN
  | Infinity s, Finite _ => Infinity s
  | Finite _, Infinity s => Infinity (negb s)
  | Infinity s, Infinity t => if Bool.eqb s t then NaN else Infinity s
  end.

Definition num_mul (a b : number) : number :=
  match a, b with
  | Finite x, Finite y => Finite (x * y)
  | NaN, _ | _, NaN => NaN
  | Infinity s, Finite y | Finite y, Infinity s =>
      if Qeq_bool y 0 then NaN else Infinity (xorb s (Qltb y 0))
  | Infinity s, Infinity t => Infinity (xorb s t)
  end.

(** [Math.floor]. *)
Definition num_floor (a : number) : number :=
  match a with
  | Finite x => Finite (inject_Z (Qfloor x))
  | _ => a
  end.

(** The integer part toward zero of ECMAScript's [truncate]. *)
Definition truncate (q : Q) : Z :=
  if Qle_bool 0 q then Qfloor q else (- Qfloor (- q))%Z.

(** [int modulo 2^w], then subtract [2^w] when at least [2^(w-1)]. *)
Definition wrap_signed (w : Z) (z : Z) : Z :=
  let m := (z mod 2 ^ w)%Z in
  if (2 ^ (w - 1) <=? m)%Z then (m - 2 ^ w)%Z else m.

(** [ToInt8] / [ToInt16] / [ToInt32], the conversion of a store into a
    signed typed array of [w] bits. *)
Definition ToInt (w : Z) (n : number) : Z :=
  match n with
  | Finite q => wrap_signed w (truncate q)
  | NaN | Infinity _ => 0%Z
  end.

(** The typed array chosen by [bitsPerDimension]. *)
Definition typed_array_width (bits : nat) : Z :=
  if (bits <=? 8)%nat then 8%Z else if (bits <=? 16)%nat then 16%Z else 32%Z.

(** [Math.max(...vector)] and [Math.min(...vector)] of a non-empty array. *)
Definition math_max (v0 : Q) (vs : list Q) : Q := fold_left Qmax vs v0.
Definition math_min (v0 : Q) (vs : list Q) : Q := fold_left Qmin vs v0.

(** The body of the loop:
    [quantizedVector[i] = Math.floor((2 * ((vector[i] - minVal) / range) - 1) * scale)]. *)
Definition quantize_component (minVal range scale : Q) (w : Z) (x : Q) : Z :=
  let normalizedVector :=
    num_sub (num_mul (Finite 2) (num_div (x - minVal) range)) (Finite 1) in
  ToInt w (num_floor (num_mul normalizedVector (Finite scale))).

(** [quantizeVector(vector, bitsPerDimension)]; on an empty array the loop
    does not run and the typed array is empty. *)
Definition quantizeVector (vector : list Q) (bits : nat) : list Z :=
  match vector with
  | [] => []
  | v0 :: vs =>
      let maxVal := math_max v0 vs in
      let minVal := math_min v0 vs in
      let range := maxVal - minVal in
      let scale := inject_Z (Quantized.scale bits) in
      map (quantize_component minVal range scale (typed_array_width bits)) vector
  end.

(** ** Lemmas on the pieces *)

Lemma wrap_signed_small w z :
  (1 <= w)%Z -> (- 2 ^ (w - 1) <= z < 2 ^ (w - 1))%Z -> wrap_signed w z = z.
Proof.
  intros Hw Hz. unfold wrap_signed.
  assert (Hp : (2 ^ w = 2 * 2 ^ (w - 1))%Z)
    by (rewrite <- Z.pow_succ_r by lia; f_equal; lia).
  destruct (Z.leb_spec 0 z).
  - rewrite Z.mod_small by lia. destruct (Z.leb_spec (2 ^ (w - 1)) z); lia.
  - rewrite <- (Z.mod_add z 1 (2 ^ w)) by lia.
    rewrite Z.mod_small by lia. destruct (Z.leb_spec (2 ^ (w - 1)) (z + 1 * 2 ^ w)); lia.
Qed.

Lemma truncate_Z z : truncate (inject_Z z) = z.
Proof.
  unfold truncate. destruct (Qle_bool 0 (inject_Z z)); [apply Qfloor_Z|].
  rewrite <- inject_Z_opp, Qfloor_Z. lia.
Qed.

Lemma typed_array_width_ge1 bits : (1 <= typed_array_width bits)%Z.
Proof. unfold typed_array_width. repeat case_match; lia. Qed.

Lemma Qmax_sel x y : Qmax x y = x \/ Qmax x y = y.
Proof. unfold Qmax, GenericMinMax.gmax. destruct (x ?= y); auto. Qed.

Lemma Qmin_sel x y : Qmin x y = x \/ Qmin x y = y.
Proof. unfold Qmin, GenericMinMax.gmin. destruct (x ?= y); auto. Qed.

(** A fold of a selecting operator returns one of the elements. *)
Lemma fold_sel_elem (f : Q -> Q -> Q) l a :
  (forall x y, f x y = x \/ f x y = y) -> fold_left f l a ∈ a :: l.
Proof.
  intros Hf. revert a. induction l as [|x l IH]; intros a; simpl; [by left|].
  specialize (IH (f a x)). rewrite elem_of_cons in IH |- *.
  rewrite elem_of_cons. destruct (Hf a x) as [E|E]; rewrite E in IH |- *; tauto.
Qed.

(** A fold of an operator above both arguments bounds every element. *)
Lemma fold_sel_bound (R : Q -> Q -> Prop) (f : Q -> Q -> Q) l a x :
  (forall x y z, R x y -> R y z -> R x z) ->
  (forall x y, R x (f x y) /\ R y (f x y)) -> (forall x, R x x) ->
  x ∈ a :: l -> R x (fold_left f l a).
Proof.
  intros Htr Hf Hrefl. revert a x. induction l as [|y l IH]; intros a x Hx; simpl.
  - apply list_elem_of_singleton in Hx. subst. apply Hrefl.
  - apply elem_of_cons in Hx as [->|[->|Hx]%elem_of_cons].
    + eapply Htr; [apply (Hf a y)|]. apply IH. by left.
    + eapply Htr; [apply (Hf a y)|]. apply IH. by left.
    + apply IH. by right.
Qed.

Lemma math_max_ub v0 vs x : x ∈ v0 :: vs -> x <= math_max v0 vs.
Proof.
  apply fold_sel_bound; [intros; eapply Qle_trans; eauto| |apply Qle_refl].
  intros; split; [apply Q.le_max_l | apply Q.le_max_r].
Qed.

Lemma math_min_lb v0 vs x : x ∈ v0 :: vs -> math_min v0 vs <= x.
Proof.
  apply (fold_sel_bound (fun a b => b <= a)); [intros; eapply Qle_trans; eauto| |apply Qle_refl].
  intros; split; [apply Q.le_min_l | apply Q.le_min_r].
Qed.

Lemma math_max_elem v0 vs : math_max v0 vs ∈ v0 :: vs.
Proof. apply fold_sel_elem, Qmax_sel. Qed.

Lemma math_min_elem v0 vs : math_min v0 vs ∈ v0 :: vs.
Proof. apply fold_sel_elem, Qmin_sel. Qed.

(** On a non-constant vector every component is the wrapped floor of the
    scaled normalised value. *)
Lemma quantize_component_finite minVal range scale w x :
  ~ range == 0 ->
  quantize_component minVal range scale w x
  = wrap_signed w (Qfloor ((2 * ((x - minVal) / range) - 1) * scale)).
Proof.
  intros Hr. unfold quantize_component, num_div.
  destruct (Qeq_bool range 0) eqn:E; [apply Qeq_bool_iff in E; contradiction|].
  simpl. by rewrite truncate_Z.
Qed.

Lemma quantizeVector_cons v0 vs bits :
  quantizeVector (v0 :: vs) bits
  = map (quantize_component (math_min v0 vs) (math_max v0 vs - math_min v0 vs)
           (inject_Z (Quantized.scale bits)) (typed_array_width bits)) (v0 :: vs).
Proof. reflexivity. Qed.

Lemma map_const {A B} (f : A -> B) (b : B) l :
  (forall x, x ∈ l -> f x = b) -> map f l = replicate (length l) b.
Proof.
  induction l as [|x l IH]; intros Hf; simpl; [done|].
  rewrite (Hf x), IH; [done| |by left]. intros; apply Hf; by right.
Qed.

(** A component of a non-constant vector, scaled: between [-scale] and
    [scale]. *)
Lemma scaled_component_bound v0 vs x (s : Z) :
  x ∈ v0 :: vs -> (0 <= s)%Z -> ~ math_max v0 vs - math_min v0 vs == 0 ->
  (- s <= Qfloor ((2 * ((x - math_min v0 vs) / (math_max v0 vs - math_min v0 vs)) - 1)
                  * inject_Z s) <= s)%Z.
Proof.
  intros Hx Hs Hr.
  pose proof (math_max_ub v0 vs x Hx). pose proof (math_min_lb v0 vs x Hx).
  set (mx := math_max v0 vs) in *. set (mn := math_min v0 vs) in *.
  assert (Hpos : 0 < mx - mn).
  { destruct (Qlt_le_dec 0 (mx - mn)); [done|]. exfalso. apply Hr. lra. }
  assert (Ht : 0 <= (x - mn) / (mx - mn) <= 1).
  { split; [apply Qle_shift_div_l | apply Qle_shift_div_r]; lra. }
  assert (0 <= inject_Z s) by (change (inject_Z 0 <= inject_Z s); rewrite <- Zle_Qle; lia).
  split.
  - rewrite <- (Qfloor_Z (- s)). apply Qfloor_resp_le.
    rewrite inject_Z_opp. nra.
  - rewrite <- (Qfloor_Z s) at 2. apply Qfloor_resp_le. nra.
Qed.

Lemma scale_nonneg bits : (0 <= Quantized.scale bits)%Z.
Proof.
  unfold Quantized.scale. assert (1 <= 2 ^ Z.of_nat bits)%Z.
  { rewrite <- (Z.pow_0_r 2). apply Z.pow_le_mono_r; lia. }
  lia.
Qed.

(** [2^bits - 1] fits the signed array chosen for [bits] exactly when
    [bits] is below the array's width. *)
Lemma scale_fits bits :
  (bits <= 31)%nat -> bits <> 8%nat -> bits <> 16%nat ->
  (Quantized.scale bits < 2 ^ (typed_array_width bits - 1))%Z.
Proof.
  intros H31 H8 H16. unfold Quantized.scale, typed_array_width.
  assert (forall m : Z, (Z.of_nat bits <= m)%Z -> (2 ^ Z.of_nat bits <= 2 ^ m)%Z)
    by (intros; apply Z.pow_le_mono_r; lia).
  destruct (Nat.leb_spec bits 8); [|destruct (Nat.leb_spec bits 16)];
    [specialize (H 7%Z) | specialize (H 15%Z) | specialize (H 31%Z)];
    simpl in *; lia.
Qed.

Lemma quantizeVector_length vector bits :
  length (quantizeVector vector bits) = length vector.
Proof. destruct vector; simpl; [done|]. by rewrite length_map. Qed.

(** C18: a constant vector (the spec's [[3, 3, 3]]) has [range = 0]; every
    [(vector[i] - minVal) / range] is [0 / 0 = NaN], which the typed array
    stores as 0: no exception is thrown and every component is 0. *)
Theorem quantizeVector_constant vector bits c :
  (forall x, x ∈ vector -> x == c) ->
  quantizeVector vector bits = replicate (length vector) 0%Z.
Proof.
  intros Hc. destruct vector as [|v0 vs]; [done|]. rewrite quantizeVector_cons.
  pose proof (Hc _ (math_max_elem v0 vs)). pose proof (Hc _ (math_min_elem v0 vs)).
  apply map_const. intros x Hx. pose proof (Hc x Hx).
  unfold quantize_component, num_div.
  replace (Qeq_bool (math_max v0 vs - math_min v0 vs) 0) with true
    by (symmetry; apply Qeq_bool_iff; lra).
  replace (Qeq_bool (x - math_min v0 vs) 0) with true
    by (symmetry; apply Qeq_bool_iff; lra).
  reflexivity.
Qed.

(** When [2^bits - 1] fits the array and the vector is not constant, a
    component is the exact floor of its scaled normalised value. *)
Lemma quantize_component_exact v0 vs bits x :
  (bits <= 31)%nat -> bits <> 8%nat -> bits <> 16%nat ->
  ~ math_max v0 vs - math_min v0 vs == 0 -> x ∈ v0 :: vs ->
  quantize_component (math_min v0 vs) (math_max v0 vs - math_min v0 vs)
    (inject_Z (Quantized.scale bits)) (typed_array_width bits) x
  = Qfloor ((2 * ((x - math_min v0 vs) / (math_max v0 vs - math_min v0 vs)) - 1)
            * inject_Z (Quantized.scale bits)).
Proof.
  intros H31 H8 H16 Hr Hx.
  pose proof (scale_fits bits H31 H8 H16). pose proof (scale_nonneg bits).
  pose proof (typed_array_width_ge1 bits).
  rewrite quantize_component_finite by done.
  pose proof (scaled_component_bound v0 vs x _ Hx ltac:(done) Hr).
  apply wrap_signed_small; lia.
Qed.

(** C19: when [2^bits - 1] fits the signed array ([bits] up to 31 other
    than 8 and 16) and the vector is not constant, each component is the
    exact [Math.floor] of its scaled normalised value, between [-scale] and
    [scale]. *)
Theorem quantizeVector_exact v0 vs bits :
  (bits <= 31)%nat -> bits <> 8%nat -> bits <> 16%nat ->
  ~ math_max v0 vs - math_min v0 vs == 0 ->
  quantizeVector (v0 :: vs) bits
  = map (fun x => Qfloor ((2 * ((x - math_min v0 vs) / (math_max v0 vs - math_min v0 vs)) - 1)
                          * inject_Z (Quantized.scale bits))) (v0 :: vs) /\
  Forall (fun z => - Quantized.scale bits <= z <= Quantized.scale bits)%Z
    (quantizeVector (v0 :: vs) bits).
Proof.
  intros H31 H8 H16 Hr. pose proof (scale_nonneg bits).
  rewrite quantizeVector_cons. split.
  - apply map_ext_in. intros x ?%list_elem_of_In. by apply quantize_component_exact.
  - apply Forall_forall. intros z (x & <- & ?%list_elem_of_In)%list_elem_of_In%in_map_iff.
    rewrite quantize_component_exact by done. by apply scaled_component_bound.
Qed.

Lemma wrap_signed_pow w :
  (2 <= w)%Z ->
  wrap_signed w (2 ^ w - 1) = (-1)%Z /\ wrap_signed w (- (2 ^ w - 1)) = 1%Z.
Proof.
  intros Hw. unfold wrap_signed.
  assert (Hp : (2 ^ w = 2 * 2 ^ (w - 1))%Z)
    by (rewrite <- Z.pow_succ_r by lia; f_equal; lia).
  assert (2 <= 2 ^ (w - 1))%Z.
  { rewrite <- (Z.pow_1_r 2) at 1. apply Z.pow_le_mono_r; lia. }
  rewrite (Z.mod_small (2 ^ w - 1)) by lia.
  replace (- (2 ^ w - 1))%Z with (1 + (-1) * 2 ^ w)%Z by lia.
  rewrite Z.mod_add, (Z.mod_small 1) by lia.
  split; [destruct (Z.leb_spec (2 ^ (w - 1)) (2 ^ w - 1)) |
          destruct (Z.leb_spec (2 ^ (w - 1)) 1)]; lia.
Qed.

(** C7: at [bitsPerDimension] 8 (the default of [quantizeVector]), 16 or
    32, [2^bits - 1] does not fit the signed array of [bits] bits: in a
    non-constant vector a component equal to the maximum scales to
    [2^bits - 1] and is stored as [-1], and a component equal to the
    minimum scales to [-(2^bits - 1)] and is stored as [1].  The order of
    the extremes is inverted by the store. *)
Theorem quantizeVector_wraps_extremes v0 vs bits i x :
  bits = 8%nat \/ bits = 16%nat \/ bits = 32%nat ->
  ~ math_max v0 vs - math_min v0 vs == 0 ->
  (v0 :: vs) !! i = Some x ->
  (x == math_max v0 vs -> quantizeVector (v0 :: vs) bits !! i = Some (-1)%Z) /\
  (x == math_min v0 vs -> quantizeVector (v0 :: vs) bits !! i = Some 1%Z).
Proof.
  intros Hbits Hr Hi.
  assert (Hw : typed_array_width bits = Z.of_nat bits /\ (2 <= Z.of_nat bits)%Z).
  { destruct Hbits as [E|[E|E]]; subst bits; split; try reflexivity; lia. }
  destruct Hw as [Hw H2].
  pose proof (wrap_signed_pow _ H2) as [Hmax Hmin].
  rewrite quantizeVector_cons, list_lookup_fmap, Hi. simpl.
  rewrite quantize_component_finite by done. rewrite Hw.
  unfold Quantized.scale.
  set (mx := math_max v0 vs) in *. set (mn := math_min v0 vs) in *.
  set (s := (2 ^ Z.of_nat bits - 1)%Z) in *.
  split; intros Hx; f_equal; [etransitivity; [|exact Hmax] | etransitivity; [|exact Hmin]]; f_equal;
    [transitivity (Qfloor (inject_Z s)) | transitivity (Qfloor (inject_Z (- s)))];
    try apply Qfloor_Z; apply Qfloor_comp; rewrite ?inject_Z_opp, Hx.
  - assert (E : (mx - mn) / (mx - mn) == 1) by (field; done).
    rewrite E. ring.
  - assert (E : (mn - mn) / (mx - mn) == 0) by (field; done).
    rewrite E. ring.
Qed.

(** The two concrete cases of the spec: the constant vector [[3, 3, 3]]
    and the smallest non-constant vector at the default 8 bits. *)
Example quantizeVector_constant_333 : quantizeVector [3; 3; 3] 8 = [0; 0; 0]%Z.
Proof. reflexivity. Qed.

Example quantizeVector_01 : quantizeVector [0; 1] 8 = [1; -1]%Z.
Proof. reflexivity. Qed.

(** ** Witnesses *)

Lemma quantizeVector_constant_witness :
  quantizeVector [3; 3; 3] 8 = replicate (length [3; 3; 3]) 0%Z.
Proof.
  apply (quantizeVector_constant _ _ 3).
  intros x Hx. apply list_elem_of_In in Hx. simpl in Hx.
  intuition subst; reflexivity.
Defined.

Lemma quantizeVector_exact_witness : quantizeVector [0; 1] 4 = [-15; 15]%Z.
Proof.
  destruct (quantizeVector_exact 0 [1] 4) as [E _]; [lia | lia | lia | |].
  - intros Hr. vm_compute in Hr. discriminate.
  - rewrite E. vm_compute. reflexivity.
Defined.

Lemma quantizeVector_wraps_extremes_witness :
  quantizeVector [0; 1] 8 !! 1%nat = Some (-1)%Z /\ quantizeVector [0; 1] 8 !! 0%nat = Some 1%Z.
Proof.
  assert (Hr : ~ math_max 0 [1] - math_min 0 [1] == 0) by (intros Hr; vm_compute in Hr; discriminate).
  split.
  - apply (quantizeVector_wraps_extremes 0 [1] 8 1 1); [lia | done | reflexivity | reflexivity].
  - apply (quantizeVector_wraps_extremes 0 [1] 8 0 0); [lia | done | reflexivity | reflexivity].
Defined.
