(* ===== verification/QuantScale.v ===== *)
(** * What [quantizeVector] keeps of a vector

    [quantizeVector] normalises each vector by its own minimum and range
    before scaling, so it forgets the position and the scale of the
    vector: a vector and its image under [x => a * x + b], [a > 0], have
    the same quantization ([quantizeVector_affine]).  When the scale fits
    the typed array, a component divided by [scale] is within [1 / scale]
    below the normalised component ([quantizeVector_error]): as the number
    of bits grows, dequantization converges to the normalised vector, not
    to the vector.  So the quantized distance of two quantized vectors does
    not approach their distance: [[0, 2]] and [[0, 1]] are at distance 1
    and quantize to the same vector at every width
    ([quantized_distance_scale_blind]).

    The proofs rewrite under the JavaScript operations of [Quantize] with
    the equality of values [num_equiv] of [number], a setoid coarser than
    [=] since [Q] has many representations of one rational. *)

From S2P Require Import Prelude Distance Quantize.

Open Scope Q_scope.

(** ** JavaScript numbers up to the equality of their values *)

Definition num_equiv (a b : number) : Prop :=
  match a, b with
  | Finite x, Finite y => x == y
  | NaN, NaN => True
  | Infinity s, Infinity t => s = t
  | _, _ => False
  end.

#[export] Instance num_equiv_equiv : Equivalence num_equiv.
Proof.
  split.
  - intros [x| |s]; simpl; done.
  - intros [x| |s] [y| |t]; simpl; try done; intros; by symmetry.
  - intros [x| |s] [y| |t] [z| |u]; simpl; try done; intros; by etransitivity.
Qed.

#[export] Instance Finite_proper : Proper (Qeq ==> num_equiv) Finite.
Proof. intros x y H. exact H. Qed.

#[export] Instance Qeq_bool_proper : Proper (Qeq ==> Qeq ==> eq) Qeq_bool.
Proof.
  intros x x' Hx y y' Hy.
  destruct (Qeq_bool x y) eqn:E, (Qeq_bool x' y') eqn:E'; try done;
    [apply Qeq_bool_iff in E; apply Qeq_bool_neq in E'
    |apply Qeq_bool_neq in E; apply Qeq_bool_iff in E']; exfalso; lra.
Qed.

#[export] Instance Qltb_proper : Proper (Qeq ==> Qeq ==> eq) Qltb.
Proof.
  intros x x' Hx y y' Hy.
  destruct (Qltb x y) eqn:E, (Qltb x' y') eqn:E'; try done;
    [apply Qltb_iff in E; apply Qltb_false in E'
    |apply Qltb_false in E; apply Qltb_iff in E']; exfalso; lra.
Qed.

#[export] Instance num_div_proper : Proper (Qeq ==> Qeq ==> num_equiv) num_div.
Proof.
  intros a a' Ha b b' Hb. unfold num_div.
  rewrite (Qeq_bool_proper b b' Hb 0 0 (Qeq_refl 0)), (Qeq_bool_proper a a' Ha 0 0 (Qeq_refl 0)),
    (Qltb_proper a a' Ha 0 0 (Qeq_refl 0)).
  destruct (Qeq_bool b' 0); [by destruct (Qeq_bool a' 0) | simpl; by apply Qdiv_comp].
Qed.

#[export] Instance num_sub_proper : Proper (num_equiv ==> num_equiv ==> num_equiv) num_sub.
Proof.
  intros [x| |s] [x'| |s'] Hx [y| |t] [y'| |t'] Hy; simpl in *; try done; subst;
    first [done | by rewrite Hx, Hy | by destruct (Bool.eqb s' t')].
Qed.

#[export] Instance num_mul_proper : Proper (num_equiv ==> num_equiv ==> num_equiv) num_mul.
Proof.
  intros [x| |s] [x'| |s'] Hx [y| |t] [y'| |t'] Hy; simpl in *; try done; subst;
    rewrite ?Hx, ?Hy; try done; by case_match.
Qed.

#[export] Instance num_floor_proper : Proper (num_equiv ==> num_equiv) num_floor.
Proof.
  intros [x| |s] [x'| |s'] Hx; simpl in *; try done. by rewrite (Qfloor_comp x x' Hx).
Qed.

#[export] Instance truncate_proper : Proper (Qeq ==> eq) truncate.
Proof.
  intros q q' Hq. unfold truncate.
  destruct (Qle_bool 0 q) eqn:E, (Qle_bool 0 q') eqn:E'.
  - by apply Qfloor_comp.
  - apply Qle_bool_iff in E. assert (~ 0 <= q') by (intros ?%Qle_bool_iff; congruence). lra.
  - apply Qle_bool_iff in E'. assert (~ 0 <= q) by (intros ?%Qle_bool_iff; congruence). lra.
  - f_equal. apply Qfloor_comp. lra.
Qed.

#[export] Instance ToInt_proper w : Proper (num_equiv ==> eq) (ToInt w).
Proof. intros [x| |s] [x'| |s'] Hx; simpl in *; try done. by rewrite Hx. Qed.

#[export] Instance quantize_component_proper :
  Proper (Qeq ==> Qeq ==> Qeq ==> eq ==> Qeq ==> eq) quantize_component.
Proof.
  intros m m' Hm r r' Hr s s' Hs w ? <- x x' Hx. unfold quantize_component.
  by rewrite Hm, Hr, Hs, Hx.
Qed.

(** ** Positive affine maps *)

Lemma Qmax_affine a b x y : 0 < a -> Qmax (a * x + b) (a * y + b) == a * Qmax x y + b.
Proof.
  intros Ha. destruct (Qlt_le_dec x y).
  - rewrite !Q.max_r; [reflexivity | lra | nra].
  - rewrite !Q.max_l; [reflexivity | lra | nra].
Qed.

Lemma Qmin_affine a b x y : 0 < a -> Qmin (a * x + b) (a * y + b) == a * Qmin x y + b.
Proof.
  intros Ha. destruct (Qlt_le_dec x y).
  - rewrite !Q.min_l; [reflexivity | lra | nra].
  - rewrite !Q.min_r; [reflexivity | lra | nra].
Qed.

(** A fold of a [Qeq]-compatible operation that commutes with [g]. *)
Lemma fold_left_commute (f : Q -> Q -> Q) (g : Q -> Q) l acc :
  Proper (Qeq ==> Qeq ==> Qeq) f -> (forall x y, f (g x) (g y) == g (f x y)) ->
  fold_left f (map g l) (g acc) == g (fold_left f l acc).
Proof.
  intros Hf Hg. revert acc. induction l as [|x l IH]; intros acc; simpl; [reflexivity|].
  rewrite <- IH. clear IH. generalize (map g l). intros l'.
  assert (Hfold : forall a1 a2, a1 == a2 -> fold_left f l' a1 == fold_left f l' a2).
  { induction l' as [|y l' IH']; intros a1 a2 Ha; simpl; [done|]. apply IH'. by rewrite Ha. }
  apply Hfold, Hg.
Qed.

Lemma math_max_affine a b v0 vs : 0 < a ->
  math_max (a * v0 + b) (map (fun x => a * x + b) vs) == a * math_max v0 vs + b.
Proof.
  intros Ha. apply (fold_left_commute Qmax (fun x => a * x + b)); [apply Q.max_compat|].
  intros x y. by apply Qmax_affine.
Qed.

Lemma math_min_affine a b v0 vs : 0 < a ->
  math_min (a * v0 + b) (map (fun x => a * x + b) vs) == a * math_min v0 vs + b.
Proof.
  intros Ha. apply (fold_left_commute Qmin (fun x => a * x + b)); [apply Q.min_compat|].
  intros x y. by apply Qmin_affine.
Qed.

Lemma num_div_scale a p q : 0 < a -> num_equiv (num_div (a * p) (a * q)) (num_div p q).
Proof.
  intros Ha. unfold num_div.
  destruct (Qeq_bool q 0) eqn:Eq.
  - apply Qeq_bool_iff in Eq.
    rewrite (proj2 (Qeq_bool_iff (a * q) 0)) by (rewrite Eq; ring).
    destruct (Qeq_bool p 0) eqn:Ep.
    + apply Qeq_bool_iff in Ep. by rewrite (proj2 (Qeq_bool_iff (a * p) 0)) by (rewrite Ep; ring).
    + apply Qeq_bool_neq in Ep.
      destruct (Qeq_bool (a * p) 0) eqn:Eap; [apply Qeq_bool_iff in Eap; exfalso; nra|].
      simpl. destruct (Qltb p 0) eqn:Eneg.
      * apply Qltb_iff in Eneg. apply Qltb_iff. nra.
      * apply Qltb_false in Eneg. apply Qltb_false. nra.
  - apply Qeq_bool_neq in Eq.
    destruct (Qeq_bool (a * q) 0) eqn:Eaq; [apply Qeq_bool_iff in Eaq; exfalso; nra|].
    simpl. field. split; [done | lra].
Qed.

Lemma quantize_component_affine a b m r s w x : 0 < a ->
  quantize_component (a * m + b) (a * r) s w (a * x + b) = quantize_component m r s w x.
Proof.
  intros Ha. unfold quantize_component.
  assert (E : a * x + b - (a * m + b) == a * (x - m)) by ring.
  by rewrite E, (num_div_scale a (x - m) r Ha).
Qed.

(** C20: [quantizeVector] forgets position and scale: a vector and its image
    under [x => a * x + b] with [a > 0] quantize to the same typed array,
    at every number of bits. *)
Theorem quantizeVector_affine a b v bits : 0 < a ->
  quantizeVector (map (fun x => a * x + b) v) bits = quantizeVector v bits.
Proof.
  intros Ha. destruct v as [|v0 vs]; [done|].
  rewrite map_cons, !quantizeVector_cons, <- (map_cons (fun x => a * x + b) v0 vs), map_map.
  apply map_ext. intros x.
  rewrite (math_max_affine a b v0 vs Ha), (math_min_affine a b v0 vs Ha).
  assert (E : a * math_max v0 vs + b - (a * math_min v0 vs + b)
              == a * (math_max v0 vs - math_min v0 vs)) by ring.
  rewrite E. by apply quantize_component_affine.
Qed.

(** ** The error of the quantization *)

Lemma Forall2_map_same {A B} (P : A -> B -> Prop) (f : A -> B) l :
  (forall x, x ∈ l -> P x (f x)) -> Forall2 P l (map f l).
Proof.
  intros H. induction l as [|x l IH]; constructor.
  - apply H. by left.
  - apply IH. intros y Hy. apply H. by right.
Qed.

Lemma scale_pos bits : (1 <= bits)%nat -> 0 < inject_Z (Quantized.scale bits).
Proof.
  intros H. unfold Quantized.scale. change 0 with (inject_Z 0). rewrite <- Zlt_Qlt.
  assert (2 ^ 1 <= 2 ^ Z.of_nat bits)%Z by (apply Z.pow_le_mono_r; lia). lia.
Qed.

(** C21: when the scale fits the typed array ([bits] from 1 to 31, other
    than 8 and 16) and the vector is not constant, each stored component
    divided by [scale] lies within [1 / scale] below the normalised
    component [2 * ((x - minVal) / range) - 1]: dequantization converges,
    as the number of bits grows, to the normalised vector. *)
Theorem quantizeVector_error v0 vs bits :
  (1 <= bits <= 31)%nat -> bits <> 8%nat -> bits <> 16%nat ->
  ~ math_max v0 vs - math_min v0 vs == 0 ->
  Forall2 (fun x z =>
      let n := 2 * ((x - math_min v0 vs) / (math_max v0 vs - math_min v0 vs)) - 1 in
      let s := inject_Z (Quantized.scale bits) in
      inject_Z z / s <= n < inject_Z z / s + 1 / s)
    (v0 :: vs) (quantizeVector (v0 :: vs) bits).
Proof.
  intros [H1 H31] H8 H16 Hr. pose proof (scale_pos bits H1) as Hs.
  rewrite quantizeVector_cons. apply Forall2_map_same. intros x Hx.
  rewrite quantize_component_exact by done.
  set (s := inject_Z (Quantized.scale bits)) in *.
  set (n := 2 * ((x - math_min v0 vs) / (math_max v0 vs - math_min v0 vs)) - 1).
  pose proof (Qfloor_le (n * s)). pose proof (Qlt_floor (n * s)).
  cbv zeta. split.
  - apply Qle_shift_div_r; [done|]. lra.
  - setoid_replace (inject_Z (Qfloor (n * s)) / s + 1 / s)
      with ((inject_Z (Qfloor (n * s)) + 1) / s) using relation Qeq by (field; lra).
    apply Qlt_shift_div_l; [done|]. rewrite inject_Z_plus in H0. change (inject_Z 1) with 1 in H0.
    lra.
Qed.

Lemma quantized_self bits v :
  exists d, Quantized.euclideanDistanceSquared bits v v = Ret d /\ d == 0.
Proof.
  unfold Quantized.euclideanDistanceSquared. rewrite Nat.eqb_refl. simpl.
  eexists. split; [reflexivity|]. unfold sum_pairs.
  apply (fold_sum_zero (fun xy => sq (inject_Z xy.1 / inject_Z (Quantized.scale bits)
                                      - inject_Z xy.2 / inject_Z (Quantized.scale bits))));
    [intros; apply sq_nonneg|].
  induction v; constructor; [apply sq_zero; simpl; ring | done].
Qed.

(** C22: the quantized distance does not measure the distance: [[0, 2]] and
    [[0, 1]] are at squared distance 1, and at every number of bits they
    quantize to the same array, at quantized distance 0 from each other. *)
Theorem quantized_distance_scale_blind bits :
  quantizeVector [0; 2] bits = quantizeVector [0; 1] bits /\
  (exists d, Quantized.euclideanDistanceSquared bits (quantizeVector [0; 2] bits)
               (quantizeVector [0; 1] bits) = Ret d /\ d == 0) /\
  Plain.euclideanDistanceSquared [0; 2] [0; 1] = Ret 1.
Proof.
  assert (E : quantizeVector [0; 2] bits = quantizeVector [0; 1] bits).
  { change [0; 2] with (map (fun x => 2 * x + 0) [0; 1]). apply quantizeVector_affine. lra. }
  split_and!; [done | rewrite E; apply quantized_self | reflexivity].
Qed.

Lemma quantizeVector_error_witness :
  Forall2 (fun x z =>
      let n := 2 * ((x - math_min 0 [1]) / (math_max 0 [1] - math_min 0 [1])) - 1 in
      let s := inject_Z (Quantized.scale 4) in
      inject_Z z / s <= n < inject_Z z / s + 1 / s)
    [0; 1] (quantizeVector [0; 1] 4).
Proof.
  apply quantizeVector_error; [lia | lia | lia | vm_compute; discriminate].
Defined.

Lemma quantizeVector_affine_witness :
  quantizeVector (map (fun x => 3 * x + 1) [0; 1; 5]) 8 = quantizeVector [0; 1; 5] 8.
Proof. apply quantizeVector_affine. lra. Defined.
