(* ===== verification/Candidates.v ===== *)
(** * Candidates and [currentBest.sort((a, b) => a[1] - b[1])]

    A candidate of [searchWithSql] is the two-element array
    [[nodeId, dist]], here the pair [(nodeId, dist)].  The round of the
    search sorts the best list with the comparator [a[1] - b[1]]:
    ascending distance, and since ECMAScript 2019 [Array.prototype.sort]
    is stable, so candidates of equal distance keep their order.  A stable
    sort by a key has exactly one result; [sort_by_dist] computes it by
    insertion, inserting each candidate before the first one of the
    sorted rest that is not strictly closer.

    The theorems: the result is a permutation of the input, sorted by
    distance, and stable (for every distance, the candidates at that
    distance appear in their input order). *)

From S2P Require Import Prelude.

Open Scope Q_scope.

(** [[nodeId, dist]]. *)
Abbreviation candidate := (Z * Q)%type.

(** The order the comparator [a[1] - b[1]] sorts by. *)
Definition dist_le (a b : candidate) : Prop := a.2 <= b.2.

Fixpoint insert_by_dist (c : candidate) (l : list candidate) : list candidate :=
  match l with
  | [] => [c]
  | c' :: l' => if Qltb c'.2 c.2 then c' :: insert_by_dist c l' else c :: l
  end.

(** [currentBest.sort((a, b) => a[1] - b[1])]. *)
Definition sort_by_dist (l : list candidate) : list candidate :=
  fold_right insert_by_dist [] l.

(** The candidates at distance [d], in order. *)
Definition at_dist (d : Q) (l : list candidate) : list candidate :=
  List.filter (fun c => Qeq_bool c.2 d) l.

(** ** Lemmas on insertion *)

Lemma insert_by_dist_perm c l : insert_by_dist c l ≡ₚ c :: l.
Proof.
  induction l as [|c' l IH]; simpl; [done|].
  destruct (Qltb c'.2 c.2); [|done].
  rewrite IH. apply Permutation_swap.
Qed.

Lemma insert_by_dist_sorted c l :
  Sorted dist_le l -> Sorted dist_le (insert_by_dist c l).
Proof.
  induction 1 as [|c' l Hl IH Hhd]; simpl; [repeat constructor|].
  destruct (Qltb c'.2 c.2) eqn:E.
  - apply Qltb_iff in E. constructor; [done|].
    destruct l as [|c'' l]; simpl in *.
    + constructor. unfold dist_le. lra.
    + inversion Hhd; subst. destruct (Qltb c''.2 c.2);
        constructor; unfold dist_le in *; lra.
  - apply Qltb_false in E. constructor; [by constructor|].
    constructor. unfold dist_le. lra.
Qed.

Lemma at_dist_insert d c l :
  at_dist d (insert_by_dist c l)
  = if Qeq_bool c.2 d then c :: at_dist d l else at_dist d l.
Proof.
  unfold at_dist. induction l as [|c' l IH]; simpl; [by destruct (Qeq_bool c.2 d)|].
  destruct (Qltb c'.2 c.2) eqn:E; simpl.
  - rewrite IH. destruct (Qeq_bool c.2 d) eqn:Ec, (Qeq_bool c'.2 d) eqn:Ec'; try done.
    apply Qltb_iff in E. apply Qeq_bool_iff in Ec, Ec'. lra.
  - by destruct (Qeq_bool c.2 d).
Qed.

(** ** The sort *)

Lemma sort_by_dist_perm l : sort_by_dist l ≡ₚ l.
Proof.
  induction l as [|c l IH]; simpl; [done|]. by rewrite insert_by_dist_perm, IH.
Qed.

Lemma sort_by_dist_sorted l : Sorted dist_le (sort_by_dist l).
Proof.
  induction l as [|c l IH]; simpl; [constructor|]. by apply insert_by_dist_sorted.
Qed.

Lemma sort_by_dist_stable l d : at_dist d (sort_by_dist l) = at_dist d l.
Proof.
  induction l as [|c l IH]; simpl; [done|].
  rewrite at_dist_insert, IH. unfold at_dist; simpl. by destruct (Qeq_bool c.2 d).
Qed.

(** C27: [sort_by_dist] is a stable sort: a permutation of its input,
    sorted by ascending distance, and for every distance the candidates
    at that distance keep their input order. *)
Theorem sort_by_dist_spec l :
  sort_by_dist l ≡ₚ l /\ Sorted dist_le (sort_by_dist l) /\
  forall d, at_dist d (sort_by_dist l) = at_dist d l.
Proof.
  split_and!; [apply sort_by_dist_perm | apply sort_by_dist_sorted |].
  intros d. apply sort_by_dist_stable.
Qed.

Lemma Sorted_take {A} (R : A -> A -> Prop) n l : Sorted R l -> Sorted R (take n l).
Proof.
  intros Hs. revert n. induction Hs as [|x l Hl IH Hhd]; intros [|n]; simpl; try constructor.
  - apply IH.
  - destruct l, n; simpl; constructor. by inversion Hhd.
Qed.

(** The distance-sorted prefix kept by [currentBest.slice(0, ef)]. *)
Lemma sort_take_sorted n l : Sorted dist_le (take n (sort_by_dist l)).
Proof. apply Sorted_take, sort_by_dist_sorted. Qed.

#[export] Hint Resolve sort_by_dist_sorted sort_take_sorted : hnsw.
