(* ===== verification/GraphStore.v ===== *)
(** * GraphStore: what the search needs from the database

    [searchWithSql] talks to DuckDB through four queries over
    [nodes.parquet] ([node_id], [data]) and [edges.parquet]
    ([source_node_id], [target_node_id], [layer]):
    - [SELECT COUNT(node_id) FROM nodes.parquet];
    - [SELECT n.node_id, n.data ... ORDER BY RANDOM() LIMIT 1];
    - [CREATE TEMP TABLE filtered_edges AS SELECT * FROM edges.parquet
       WHERE source_node_id IN (...) AND layer = ... AND target_node_id NOT IN (...)]
      followed by the join of [nodes.parquet] with [filtered_edges] on
      [n.node_id = e.target_node_id].

    The [IN] lists are the text of JavaScript arrays joined with commas,
    so they are lists of numbers ([sql_in] compares the integer column with
    each of them).  Class [GraphStore] states the operations and Class
    [GraphStoreSpec] the laws the engine relies on: the count is the number
    of node rows, the random row is a node row, and every neighbour row is
    a node row whose id is not in the [NOT IN] list.  SQL leaves the order
    of the joined rows open; the engine's theorems hold for every instance,
    hence for every row order.  [tables] is the instance that evaluates the
    queries over lists of rows (edges in table order, then node rows), and
    the random draw is an argument. *)

From S2P Require Import Prelude.

Open Scope Z_scope.

(** A row of [edges.parquet]. *)
Record edge := {
  source_node_id : Z;
  target_node_id : Z;
  layer : Z
}.

(** [x IN (v1, ..., vn)] for an integer column and a list of numbers.
    An empty list, [IN ()], is a syntax error in SQL that this test does
    not model; the search never writes one: [filteredCandidates] is not
    empty past the guard [if (filteredCandidates.length === 0) continue],
    and [candidates] contains it. *)
Definition sql_in (x : Z) (vs : list Q) : bool :=
  existsb (fun v => Qeq_bool (inject_Z x) v) vs.

Lemma sql_in_member x vs : In (inject_Z x) vs -> sql_in x vs = true.
Proof.
  intros Hin. apply existsb_exists. exists (inject_Z x). split; [done | apply Qeq_bool_refl].
Qed.

Class GraphStore (S V : Type) := {
  (** the rows of [nodes.parquet], [(node_id, data)] *)
  nodes : S -> list (Z * V);
  (** [SELECT COUNT(node_id) FROM nodes.parquet] *)
  count : S -> Z;
  (** [ORDER BY RANDOM() LIMIT 1] for the random draw [r] *)
  random_node : S -> nat -> option (Z * V);
  (** [filtered_edges] for the [IN] list, the layer and the [NOT IN]
      list, joined with [nodes.parquet] *)
  neighbors : S -> list Q -> Z -> list Q -> list (Z * V)
}.

Class GraphStoreSpec (S V : Type) `{GraphStore S V} := {
  count_spec s : count s = Z.of_nat (length (nodes s));
  random_node_member s r row : random_node s r = Some row -> row ∈ nodes s;
  random_node_total s r : nodes s <> [] -> is_Some (random_node s r);
  neighbors_member s srcs l excl row :
    row ∈ neighbors s srcs l excl -> row ∈ nodes s;
  neighbors_excluded s srcs l excl row :
    row ∈ neighbors s srcs l excl -> sql_in row.1 excl = false
}.

(** ** The tables instance *)

Record tables (V : Type) := {
  node_rows : list (Z * V);
  edge_rows : list edge
}.
Arguments node_rows {V} _.
Arguments edge_rows {V} _.

Definition filtered_edges {V} (t : tables V) (srcs : list Q) (l : Z) (excl : list Q)
  : list edge :=
  List.filter (fun e => sql_in (source_node_id e) srcs && (layer e =? l)
                        && negb (sql_in (target_node_id e) excl)) (edge_rows t).

(** [SELECT e.target_node_id AS node_id, n.data AS node_data FROM
    nodes.parquet n INNER JOIN filtered_edges e ON n.node_id = e.target_node_id]. *)
Definition fetch_neighbors {V} (t : tables V) (srcs : list Q) (l : Z) (excl : list Q)
  : list (Z * V) :=
  flat_map (fun e => map (fun n => (target_node_id e, n.2))
                         (List.filter (fun n => n.1 =? target_node_id e) (node_rows t)))
           (filtered_edges t srcs l excl).

Definition random_row {V} (t : tables V) (r : nat) : option (Z * V) :=
  match node_rows t with
  | [] => None
  | _ => nth_error (node_rows t) (r mod length (node_rows t))
  end.

#[export] Instance tables_store V : GraphStore (tables V) V := {
  nodes := node_rows;
  count t := Z.of_nat (length (node_rows t));
  random_node := random_row;
  neighbors := fetch_neighbors
}.

Lemma fetch_neighbors_spec {V} (t : tables V) srcs l excl row :
  row ∈ fetch_neighbors t srcs l excl ->
  row ∈ node_rows t /\ sql_in row.1 excl = false.
Proof.
  unfold fetch_neighbors, filtered_edges.
  intros (e & He & Hrow)%list_elem_of_In%in_flat_map.
  apply filter_In in He as [_ He].
  apply andb_true_iff in He as [_ He]. apply negb_true_iff in He.
  apply in_map_iff in Hrow as (n & <- & Hn).
  apply filter_In in Hn as [Hn Hid]. apply Z.eqb_eq in Hid.
  destruct n as [i v]; simpl in *; subst.
  split; [by apply list_elem_of_In | done].
Qed.

#[export] Instance tables_store_spec V : GraphStoreSpec (tables V) V.
Proof.
  split; simpl.
  - done.
  - intros t r row. unfold random_row. destruct (node_rows t) eqn:E; [done|].
    intros Hn. apply list_elem_of_In. eapply nth_error_In. exact Hn.
  - intros t r Hne. unfold random_row. destruct (node_rows t) as [|n ns] eqn:E; [done|].
    destruct (nth_error (n :: ns) (r mod length (n :: ns))) eqn:Hn; [done|].
    apply nth_error_None in Hn. pose proof (Nat.mod_upper_bound r (length (n :: ns))).
    simpl in *. lia.
  - intros t srcs l excl row Hrow. by apply (fetch_neighbors_spec t srcs l excl).
  - intros t srcs l excl row Hrow. by apply (fetch_neighbors_spec t srcs l excl).
Qed.
