(* ===== verification/Engine.v ===== *)
(** * AnnSearchEngine: the layer-descending beam search of [searchWithSql]

    [searchWithSql(conn, queryData, k, path, ef)] of both source files,
    from the count query to [ids = currentBest.slice(0, k).map(...)].  The
    two files differ only in the distance function and in quantizing the
    query first, so the engine is one Section, generic in the vector type
    [V], the distance [metric] and the store (Class [GraphStore]).

    State, as in the code: [currentBest], an array of [[nodeId, dist]]
    pairs, and [cache], a JavaScript object from node ids to
    [{data, distance}] (here a [gmap]).  A round of [while (improved)]:
    - [filteredCandidates = Array.from(new Set(currentBest)).filter(nodeId
      => !cache[nodeId] || !cache[nodeId][layer])]: property keys are
      strings; the elements are the pairs themselves, so [cache] is read
      at [String([id, dist])], the id, a comma and the distance
      ([pair_key]), while its keys are the decimal texts of ids
      ([key_of_id], [cache_get]); no such text has a comma, and the own
      keys of an entry, [data] and [distance], are not texts of numbers
      ([entry_has_layer]), so the filter keeps every candidate
      ([not_expanded_true]);
    - the two [IN] lists are [join(",")] of arrays of pairs, so they hold
      the ids and the distances of the candidates ([sql_list]), and the
      [NOT IN] list also the keys of [cache];
    - for each neighbour row ([visit_neighbor]): skip it when already
      admitted this round ([newCandidates]), reuse the cached distance or
      compute and cache it, and push it when the list is shorter than [ef]
      or it is closer than the LAST element of [currentBest] (the list is
      not sorted during the round: the last element is the most recently
      pushed one);
    - sort by distance and keep the first [ef] ([round]).
    A round that finds no candidate or no neighbour row leaves the state
    as it is and stops the loop ([continue] with [improved = false]). *)

From stdpp Require Import strings pretty.
From Stdlib Require Import Ascii.
From S2P Require Import Prelude Candidates GraphStore.

Open Scope Q_scope.

Section Engine.

Context {Store V : Type} `{GraphStoreSpec Store V}.

(** [euclideanDistanceSquared(data, queryData)], with the node's data
    first and the query second as in the code. *)
Variable metric : V -> V -> outcome Q.

(** An entry [{ data, distance: dist }] of [cache]. *)
Record cache_entry := {
  data : V;
  distance : Q
}.

(** [String(id)] of an integer node id, the property key that
    [cache[neighborId]] uses: its decimal digits, with a leading [-] when
    negative, ["0"] for zero.  stdpp's [pretty] on [Z] prints exactly so. *)
Definition key_of_id (id : Z) : string := pretty id.

(** [String(dist)] of a distance.  An integral distance (every distance of
    the quantized search) prints as an integer does; a rational with a
    denominator is written as a fraction.  The doubles of the code print as
    their shortest decimal, which the exact rationals of the model do not
    have; what the filter depends on is only that the text follows a comma. *)
Definition number_text (q : Q) : string :=
  if decide (Qden q = 1%positive) then pretty (Qnum q)
  else String.append (pretty (Qnum q)) (String "/" (pretty (Zpos (Qden q)))).

(** The property key of an array [[nodeId, dist]]: [String] of an array is
    its [join(",")]. *)
Definition pair_key (c : candidate) : string :=
  String.append (key_of_id c.1) (String "," (number_text c.2)).

(** [cache[key]] for a string [key]: [cache] holds an entry at the key
    [String(id)] of each node id it was written at ([cache[neighborId] =
    ...]); the [gmap] is indexed by the ids themselves. *)
Definition cache_get (cache : gmap Z cache_entry) (key : string) : option cache_entry :=
  (fun ikv => ikv.2.2) <$> list_find (fun kv => key_of_id kv.1 = key) (map_to_list cache).

(** [entry[key]] is truthy, for an entry, the literal [{ data, distance:
    dist }]: [data] is an array (truthy, even when empty), [distance] a
    number (falsy at [0]); another key names no own property of the
    literal, and the keys of [Object.prototype] are not numbers. *)
Definition entry_prop_truthy (e : cache_entry) (key : string) : bool :=
  if decide (key = "data") then true
  else if decide (key = "distance") then negb (Qeq_bool (distance e) 0)
  else false.

(** [cache[nodeId][layer]] is truthy: the key is [String(layer)]. *)
Definition entry_has_layer (e : cache_entry) (layer : Z) : bool :=
  entry_prop_truthy e (key_of_id layer).

(** [(nodeId) => !cache[nodeId] || !cache[nodeId][layer]], where the
    element [nodeId] of [Array.from(candidates)] is a candidate pair
    [[id, dist]], so [cache] is read at its key [pair_key]; an entry, an
    object, is truthy. *)
Definition not_expanded (cache : gmap Z cache_entry) (layer : Z) (nodeId : candidate) : bool :=
  match cache_get cache (pair_key nodeId) with
  | None => true
  | Some e => negb (entry_has_layer e layer)
  end.

(** [arr.join(",")] of an array of pairs, read back by SQL as numbers. *)
Definition sql_list (l : list candidate) : list Q :=
  flat_map (fun c => [inject_Z c.1; c.2]) l.

(** [Object.keys(cache)], as numbers in the SQL text. *)
Definition cache_keys (cache : gmap Z cache_entry) : list Q :=
  map (fun kv => inject_Z kv.1) (map_to_list cache).

(** The variables the neighbour loop updates. *)
Record round_state := {
  best : list candidate;
  cache_of : gmap Z cache_entry;
  newCandidates : gset Z;
  improved : bool
}.

(** The state carried from round to round and layer to layer. *)
Record search_state := {
  currentBest : list candidate;
  cache : gmap Z cache_entry
}.

Definition admit_test (ef : nat) (best : list candidate) (dist : Q) : outcome bool :=
  if Nat.ltb (length best) ef then Ret true
  else match last best with
       | Some (_, worst) => Ret (Qltb dist worst)
       | None => Throw TypeError
       end.

(** One iteration of [for (const [neighborId_, node_data_] of neighbors)]. *)
Definition visit_neighbor (queryData : V) (ef : nat) (st : round_state) (row : Z * V)
  : outcome round_state :=
  let '(neighborId, data) := row in
  if bool_decide (neighborId ∈ newCandidates st) then Ret st
  else
    dc <- match cache_of st !! neighborId with
          | Some e => Ret (distance e, cache_of st)
          | None => dist <- metric data queryData ;;
                    Ret (dist, <[neighborId := {| data := data; distance := dist |}]> (cache_of st))
          end ;;
    let '(dist, cache') := dc in
    ok <- admit_test ef (best st) dist ;;
    if ok
    then Ret {| best := best st ++ [(neighborId, dist)]; cache_of := cache';
                newCandidates := {[neighborId]} ∪ newCandidates st; improved := true |}
    else Ret {| best := best st; cache_of := cache';
                newCandidates := newCandidates st; improved := improved st |}.

(** One iteration of [while (improved)]: whether it improved, and the new
    state. *)
Definition round (s : Store) (queryData : V) (ef : nat) (layer : Z) (st : search_state)
  : outcome (bool * search_state) :=
  let candidates := currentBest st in
  let filteredCandidates := List.filter (not_expanded (cache st) layer) candidates in
  match filteredCandidates with
  | [] => Ret (false, st)
  | _ :: _ =>
      let sqlSafeFilteredCandidates := sql_list filteredCandidates in
      let sqlSafeCandidates := sql_list candidates ++ cache_keys (cache st) in
      match neighbors s sqlSafeFilteredCandidates layer sqlSafeCandidates with
      | [] => Ret (false, st)
      | rows =>
          rs <- ofold_left (visit_neighbor queryData ef) rows
                  {| best := candidates; cache_of := cache st;
                     newCandidates := ∅; improved := false |} ;;
          Ret (improved rs,
               {| currentBest := take ef (sort_by_dist (best rs)); cache := cache_of rs |})
      end
  end.

(** [let improved = true; while (improved) { ... }] with [fuel] rounds. *)
Fixpoint layer_pass (s : Store) (queryData : V) (ef : nat) (layer : Z) (fuel : nat)
    (st : search_state) : outcome search_state :=
  match fuel with
  | O => OutOfFuel
  | S fuel' =>
      r <- round s queryData ef layer st ;;
      if r.1 then layer_pass s queryData ef layer fuel' r.2 else Ret r.2
  end.

(** [for (let layer = maxLayer; layer >= 0; layer--)]. *)
Fixpoint descend (s : Store) (queryData : V) (ef : nat) (fuel : nat) (layer : nat)
    (st : search_state) : outcome search_state :=
  st' <- layer_pass s queryData ef (Z.of_nat layer) fuel st ;;
  match layer with
  | O => Ret st'
  | S layer' => descend s queryData ef fuel layer' st'
  end.

(** The rounds a layer may need: one per node that can enter the cache,
    and the last one that finds nothing new. *)
Definition search_fuel (s : Store) : nat := S (length (nodes s)).

(** [const maxLayer = count > 0 ? Math.floor(Math.log2(count)) : 0]. *)
Definition max_layer (count : Z) : Z :=
  if (0 <? count)%Z then Z.log2 count else 0%Z.

(** The entry point: the random row with its distance, or no candidate
    when the table is empty. *)
Definition init_best (s : Store) (queryData : V) (r : nat) : outcome (list candidate) :=
  match random_node s r with
  | None => Ret []
  | Some (nId, data) => d <- metric data queryData ;; Ret [(nId, d)]
  end.

(** [searchWithSql] up to the ids of the documents to fetch; [r] is the
    draw of [ORDER BY RANDOM()]. *)
Definition searchWithSql_ids (s : Store) (queryData : V) (k ef : nat) (r : nat)
  : outcome (list Z) :=
  let maxLayer := max_layer (count s) in
  init <- init_best s queryData r ;;
  st <- descend s queryData ef (search_fuel s) (Z.to_nat maxLayer)
          {| currentBest := init; cache := ∅ |} ;;
  Ret (map fst (take k (currentBest st))).

End Engine.

Arguments cache_entry V : clear implicits.
Arguments round_state V : clear implicits.
Arguments search_state V : clear implicits.

(** ** Property keys *)

(** A character of the decimal text of an integer. *)
Definition numeric_char (c : ascii) : bool :=
  bool_decide (c ∈ ["0"; "1"; "2"; "3"; "4"; "5"; "6"; "7"; "8"; "9"; "-"]%char).

(** A string of digits and minus signs only. *)
Fixpoint numeric_text (s : string) : bool :=
  match s with
  | EmptyString => true
  | String c s' => numeric_char c && numeric_text s'
  end.

Lemma numeric_text_app a b :
  numeric_text (String.append a b) = numeric_text a && numeric_text b.
Proof.
  induction a as [|c a IH]; [done|].
  rewrite append_String. cbn [numeric_text]. by rewrite IH, andb_assoc.
Qed.

Lemma numeric_text_pretty_N_go x s :
  numeric_text (pretty_N_go x s) = numeric_text s.
Proof.
  revert s. induction (N.lt_wf_0 x) as [x _ IH]; intros s.
  destruct (decide (x = 0)%N) as [->|Hx]; [by rewrite pretty_N_go_0|].
  rewrite pretty_N_go_step by lia. rewrite IH by (apply N.div_lt; lia).
  cbn [numeric_text]. replace (numeric_char _) with true; [done|].
  unfold pretty_N_char. by repeat case_match.
Qed.

(** [String(id)] is made of digits and [-]. *)
Lemma numeric_text_key_of_id id : numeric_text (key_of_id id) = true.
Proof.
  unfold key_of_id, pretty, pretty_Z, pretty_positive, pretty, pretty_N.
  destruct id as [|p|p]; [done| |]; case_decide; try done.
  - by rewrite numeric_text_pretty_N_go.
  - rewrite append_String, append_EmptyString. cbn [numeric_text].
    by rewrite numeric_text_pretty_N_go.
Qed.

(** [cache[neighborId]] at the key [String(neighborId)] is the entry the
    [gmap] holds at [neighborId]: [String] is injective on integers. *)
Lemma cache_get_key_of_id {V} (c : gmap Z (cache_entry V)) id :
  cache_get c (key_of_id id) = c !! id.
Proof.
  unfold cache_get. destruct (list_find _ _) as [[i [k e]]|] eqn:Hf; cbn [fmap option_fmap option_map].
  - apply list_find_Some in Hf as (Hi & Hk & _). cbn in Hk. apply (inj pretty) in Hk as ->.
    symmetry. apply elem_of_map_to_list. by eapply list_elem_of_lookup_2.
  - symmetry. apply eq_None_not_Some. intros [e He]. apply list_find_None in Hf.
    rewrite Forall_forall in Hf. apply (Hf (id, e)); [by apply elem_of_map_to_list|done].
Qed.

(** A key with a character other than a digit or [-] is the key of no
    entry of [cache]. *)
Lemma cache_get_not_numeric {V} (c : gmap Z (cache_entry V)) key :
  numeric_text key = false -> cache_get c key = None.
Proof.
  intros Hkey. unfold cache_get. destruct (list_find _ _) as [[i [k e]]|] eqn:Hf; [|done].
  apply list_find_Some in Hf as (_ & Hk & _). cbn in Hk. subst key.
  by rewrite numeric_text_key_of_id in Hkey.
Qed.

(** The key of a pair has a comma. *)
Lemma numeric_text_pair_key p : numeric_text (pair_key p) = false.
Proof. unfold pair_key. rewrite numeric_text_app. cbn [numeric_text]. by rewrite andb_false_r. Qed.

(** No entry has a truthy property [String(layer)]: neither [data] nor
    [distance] is the text of a number. *)
Lemma entry_has_layer_false {V} (e : cache_entry V) layer : entry_has_layer e layer = false.
Proof.
  unfold entry_has_layer, entry_prop_truthy. pose proof (numeric_text_key_of_id layer) as Hn.
  repeat case_decide; try done;
    match goal with Hk : key_of_id _ = _ |- _ => rewrite Hk in Hn; discriminate end.
Qed.

(** Reading [cache] at a candidate pair is [undefined]: the filter of a
    round is true of every candidate. *)
Lemma not_expanded_true {V} (c : gmap Z (cache_entry V)) layer (p : candidate) :
  not_expanded c layer p = true.
Proof. unfold not_expanded. by rewrite cache_get_not_numeric by apply numeric_text_pair_key. Qed.
