(* ===== verification/Round.v ===== *)
(** * Invariants of one round of the search

    The neighbour loop of a round ([visit_neighbor] folded over the rows)
    and the round itself ([round]) preserve what the rest of the search
    relies on: the best list has no duplicate ids, every candidate carries
    the true distance of a node of the table, every cache entry is a node
    row with its true distance, and the cache only grows.

    The subtle part is duplicates.  The query excludes the ids of the best
    list and of the cache, but the join can return the same node twice in
    one round (two sources with an edge to it).  The second visit is
    skipped when the first pushed it ([newCandidates]); when the first
    visit rejected it, the list was already [ef] long and the node was not
    closer than the last element, and the last element only gets closer
    during the round (it is the node pushed last), so the second visit
    rejects it again.  [visit_inv] records exactly this ([vi_reject]). *)

From S2P Require Import Prelude Candidates GraphStore Engine.

Open Scope Q_scope.

Section Round.

Context {Store V : Type} `{GraphStoreSpec Store V}.
Variable metric : V -> V -> outcome Q.
Variables (s : Store) (q : V) (ef : nat).

(** [d] is the distance of a row of node [i] to the query. *)
Definition node_dist (i : Z) (d : Q) : Prop :=
  exists v, (i, v) ∈ nodes s /\ metric v q = Ret d.

(** Every cache entry is a node row with its distance. *)
Definition cache_ok (c : gmap Z (cache_entry V)) : Prop :=
  forall i e, c !! i = Some e -> ((i, data e) ∈ nodes s) /\ metric (data e) q = Ret (distance e).

(** A row the neighbour query can return in a round that starts from
    [best0] and [cache0]. *)
Definition fresh_row (best0 : list candidate) (cache0 : gmap Z (cache_entry V)) (row : Z * V) :=
  (row ∈ nodes s) /\ (row.1 ∉ map fst best0) /\ cache0 !! row.1 = None.

Record visit_inv (best0 : list candidate) (cache0 : gmap Z (cache_entry V))
    (seen : list Z) (rs : round_state V) : Prop := {
  vi_nodup : NoDup (map fst (best rs));
  vi_best c : c ∈ best rs -> c ∈ best0 \/ node_dist c.1 c.2;
  vi_ids i : i ∈ map fst (best rs) -> i ∈ map fst best0 \/ i ∈ newCandidates rs;
  vi_new i : i ∈ newCandidates rs -> i ∈ seen;
  vi_cache : cache_ok (cache_of rs);
  vi_seen i : i ∈ seen -> is_Some (cache_of rs !! i);
  vi_grow i e : cache0 !! i = Some e -> cache_of rs !! i = Some e;
  vi_keys i : is_Some (cache_of rs !! i) -> is_Some (cache0 !! i) \/ i ∈ seen;
  vi_len : (length best0 <= length (best rs))%nat;
  vi_reject i : i ∈ seen -> i ∉ newCandidates rs ->
    (ef <= length (best rs))%nat /\
    exists e c, cache_of rs !! i = Some e /\ last (best rs) = Some c /\ c.2 <= distance e
}.

Lemma visit_inv_start best0 cache0 :
  NoDup (map fst best0) -> cache_ok cache0 ->
  visit_inv best0 cache0 []
    {| best := best0; cache_of := cache0; newCandidates := ∅; improved := false |}.
Proof.
  intros Hnd Hc. split; simpl; try done; intros; try (by left); set_solver.
Qed.

(** Seeing again an id already seen changes nothing. *)
Lemma visit_inv_again best0 cache0 seen rs i :
  visit_inv best0 cache0 seen rs -> i ∈ seen -> visit_inv best0 cache0 (seen ++ [i]) rs.
Proof.
  intros [] Hi.
  assert (Hs : forall j, j ∈ seen ++ [i] -> j ∈ seen)
    by (intros j [| ->%list_elem_of_singleton]%elem_of_app; auto).
  split; auto.
  - intros j Hj. apply elem_of_app. left. auto.
  - intros j Hj. destruct (vi_keys0 j Hj); [by left | right; apply elem_of_app; by left].
Qed.

(** A cache hit for an id not admitted this round: the id was seen and
    rejected, so it is rejected again and the state does not change. *)
Lemma visit_hit best0 cache0 seen rs row e rs' :
  visit_inv best0 cache0 seen rs -> fresh_row best0 cache0 row ->
  row.1 ∉ newCandidates rs -> cache_of rs !! row.1 = Some e ->
  visit_neighbor metric q ef rs row = Ret rs' -> rs' = rs /\ row.1 ∈ seen.
Proof.
  intros Hi (_ & _ & Hfresh) Hnew Hc. destruct row as [i v]; simpl in *.
  assert (Hseen : i ∈ seen).
  { destruct (vi_keys _ _ _ _ Hi i) as [[? ?]|]; [by eexists|congruence|done]. }
  destruct (vi_reject _ _ _ _ Hi i Hseen Hnew) as (Hlen & e' & c & He' & Hlast & Hle).
  rewrite Hc in He'. injection He' as <-.
  unfold visit_neighbor. rewrite bool_decide_false by done. rewrite Hc. simpl.
  unfold admit_test. destruct (Nat.ltb_spec (length (best rs)) ef); [lia|].
  rewrite Hlast. destruct c as [ci cd]. simpl in *.
  replace (Qltb (distance e) cd) with false by (symmetry; apply Qltb_false; done).
  simpl. intros [= <-]. by destruct rs.
Qed.


Lemma admit_test_true l d :
  admit_test ef l d = Ret true ->
  (length l < ef)%nat \/ exists c, last l = Some c /\ d < c.2.
Proof.
  unfold admit_test. destruct (Nat.ltb_spec (length l) ef); [by left|].
  destruct (last l) as [[ci cd]|]; [|discriminate].
  intros [= Hlt%Qltb_iff]. right. by exists (ci, cd).
Qed.

Lemma admit_test_false l d :
  admit_test ef l d = Ret false ->
  (ef <= length l)%nat /\ exists c, last l = Some c /\ c.2 <= d.
Proof.
  unfold admit_test. destruct (Nat.ltb_spec (length l) ef); [discriminate|].
  destruct (last l) as [[ci cd]|]; [|discriminate].
  intros [= Hle%Qltb_false]. split; [done|]. by exists (ci, cd).
Qed.

(** The cache after computing and storing the distance of a fresh row. *)
Lemma visit_inv_cache best0 cache0 seen rs i v d :
  visit_inv best0 cache0 seen rs -> (i, v) ∈ nodes s -> metric v q = Ret d ->
  cache0 !! i = None ->
  let c' := <[i := {| data := v; distance := d |}]> (cache_of rs) in
  cache_ok c' /\ (forall j, j ∈ seen ++ [i] -> is_Some (c' !! j)) /\
  (forall j e, cache0 !! j = Some e -> c' !! j = Some e) /\
  (forall j, is_Some (c' !! j) -> is_Some (cache0 !! j) \/ j ∈ seen ++ [i]).
Proof.
  intros Hi Hrow Hm Hfresh c'. subst c'. split_and!.
  - intros j e. rewrite lookup_insert. case_decide; [intros [= <-]; subst; by split|].
    apply (vi_cache _ _ _ _ Hi).
  - intros j [Hj| ->%list_elem_of_singleton]%elem_of_app.
    + rewrite lookup_insert. case_decide; [done|]. by apply (vi_seen _ _ _ _ Hi).
    + by rewrite lookup_insert_eq.
  - intros j e He. rewrite lookup_insert_ne by congruence. by apply (vi_grow _ _ _ _ Hi).
  - intros j. rewrite lookup_insert. case_decide.
    + subst. right. apply elem_of_app. right. by left.
    + intros [|]%(vi_keys _ _ _ _ Hi); [by left|]. right. apply elem_of_app. by left.
Qed.

(** A fresh row admitted: pushed at the end, which becomes the new last
    element, closer than every rejected one. *)
Lemma visit_inv_push best0 cache0 seen rs i v d :
  visit_inv best0 cache0 seen rs -> fresh_row best0 cache0 (i, v) ->
  i ∉ newCandidates rs -> cache_of rs !! i = None -> metric v q = Ret d ->
  admit_test ef (best rs) d = Ret true ->
  visit_inv best0 cache0 (seen ++ [i])
    {| best := best rs ++ [(i, d)];
       cache_of := <[i := {| data := v; distance := d |}]> (cache_of rs);
       newCandidates := {[i]} ∪ newCandidates rs; improved := true |}.
Proof.
  intros Hi (Hrow & Hnb & Hfresh) Hnew Hc Hm Hadm.
  destruct (visit_inv_cache _ _ _ _ _ _ _ Hi Hrow Hm Hfresh) as (Hc1 & Hc2 & Hc3 & Hc4).
  assert (Hnotin : i ∉ map fst (best rs))
    by (intros [|]%(vi_ids _ _ _ _ Hi); contradiction).
  split; simpl; auto.
  - rewrite map_app. apply NoDup_app. split_and!; [apply (vi_nodup _ _ _ _ Hi)| |].
    + intros j Hj ->%list_elem_of_singleton. contradiction.
    + apply NoDup_singleton.
  - intros c [Hcb| ->%list_elem_of_singleton]%elem_of_app;
      [by apply (vi_best _ _ _ _ Hi) | right; by exists v].
  - rewrite map_app. intros j [Hj| ->%list_elem_of_singleton]%elem_of_app; [|set_solver].
    destruct (vi_ids _ _ _ _ Hi j Hj); [by left | set_solver].
  - intros j [->%elem_of_singleton|Hj]%elem_of_union; apply elem_of_app;
      [right; by left | left; by apply (vi_new _ _ _ _ Hi)].
  - rewrite length_app. pose proof (vi_len _ _ _ _ Hi). lia.
  - intros j Hj Hjn. apply not_elem_of_union in Hjn as [Hji%not_elem_of_singleton Hjn].
    apply elem_of_app in Hj as [Hj| ->%list_elem_of_singleton]; [|done].
    destruct (vi_reject _ _ _ _ Hi j Hj Hjn) as (Hlen & e & c & He & Hlast & Hle).
    rewrite length_app. split; [lia|].
    exists e, (i, d). rewrite lookup_insert_ne by congruence. split_and!; [done|apply last_snoc|].
    destruct (admit_test_true _ _ Hadm) as [|(c' & Hc' & Hlt)]; [lia|].
    rewrite Hlast in Hc'. injection Hc' as <-. simpl. lra.
Qed.

(** A fresh row rejected: only the cache changes, and the row is recorded
    as rejected. *)
Lemma visit_inv_reject best0 cache0 seen rs i v d :
  visit_inv best0 cache0 seen rs -> fresh_row best0 cache0 (i, v) ->
  i ∉ newCandidates rs -> cache_of rs !! i = None -> metric v q = Ret d ->
  admit_test ef (best rs) d = Ret false ->
  visit_inv best0 cache0 (seen ++ [i])
    {| best := best rs;
       cache_of := <[i := {| data := v; distance := d |}]> (cache_of rs);
       newCandidates := newCandidates rs; improved := improved rs |}.
Proof.
  intros Hi (Hrow & Hnb & Hfresh) Hnew Hc Hm Hadm.
  destruct (visit_inv_cache _ _ _ _ _ _ _ Hi Hrow Hm Hfresh) as (Hc1 & Hc2 & Hc3 & Hc4).
  destruct (admit_test_false _ _ Hadm) as (Hlen & c & Hlast & Hle).
  pose proof Hi as [Hnd Hb Hids Hnw Hcache Hseen Hgrow Hkeys Hl Hrej].
  split; simpl; auto.
  - intros j Hj. apply elem_of_app. left. by apply (vi_new _ _ _ _ Hi).
  - intros j Hj Hjn. apply elem_of_app in Hj as [Hj|Hj%list_elem_of_singleton]; [|subst j].
    + destruct (decide (j = i)) as [->|Hji].
      { exfalso. destruct (Hseen i Hj). congruence. }
      destruct (Hrej j Hj Hjn) as (Hl2 & e & c' & He & Hlast' & Hle').
      split; [done|]. exists e, c'. by rewrite lookup_insert_ne by congruence.
    + split; [done|]. exists {| data := v; distance := d |}, c.
      by rewrite lookup_insert_eq.
Qed.

Lemma visit_step best0 cache0 seen rs row rs' :
  visit_inv best0 cache0 seen rs -> fresh_row best0 cache0 row ->
  visit_neighbor metric q ef rs row = Ret rs' ->
  visit_inv best0 cache0 (seen ++ [row.1]) rs'.
Proof.
  intros Hi Hf Hv. destruct row as [i v]. simpl.
  destruct (decide (i ∈ newCandidates rs)) as [Hn|Hn].
  - unfold visit_neighbor in Hv. rewrite bool_decide_true in Hv by done.
    injection Hv as <-. apply visit_inv_again; [done|]. by apply (vi_new _ _ _ _ Hi).
  - destruct (cache_of rs !! i) as [e|] eqn:Hc.
    + destruct (visit_hit _ _ _ _ _ _ _ Hi Hf Hn Hc Hv) as [-> Hs].
      by apply visit_inv_again.
    + unfold visit_neighbor in Hv. rewrite bool_decide_false in Hv by done.
      rewrite Hc in Hv. simpl in Hv.
      destruct (metric v q) as [d| |] eqn:Hm; simpl in Hv; try discriminate.
      destruct (admit_test ef (best rs) d) as [[]| |] eqn:Ha; simpl in Hv;
        try discriminate; injection Hv as <-.
      * by apply visit_inv_push.
      * by apply visit_inv_reject.
Qed.

Lemma visit_fold best0 cache0 rows seen rs rs' :
  visit_inv best0 cache0 seen rs ->
  (forall row, row ∈ rows -> fresh_row best0 cache0 row) ->
  ofold_left (visit_neighbor metric q ef) rows rs = Ret rs' ->
  visit_inv best0 cache0 (seen ++ map fst rows) rs'.
Proof.
  revert seen rs. induction rows as [|row rows IH]; intros seen rs Hi Hf Hrun; simpl in *.
  - injection Hrun as <-. by rewrite app_nil_r.
  - outcome_inv Hrun. change (seen ++ row.1 :: map fst rows) with (seen ++ [row.1] ++ map fst rows). rewrite app_assoc.
    apply (IH _ a); [|intros; apply Hf; by right|done].
    eapply visit_step; [done| |done]. apply Hf. by left.
Qed.

(** Every node row has a distance to the query: no [LengthMismatch]. *)
Definition dims_ok : Prop :=
  forall row, row ∈ nodes s -> exists d, metric row.2 q = Ret d.

Lemma admit_test_ok l d : l <> [] -> exists b, admit_test ef l d = Ret b.
Proof.
  intros Hl. unfold admit_test. destruct (Nat.ltb _ _); [eauto|].
  destruct (last l) as [[ci cd]|] eqn:E; [eauto|]. by apply last_None in E.
Qed.

Lemma visit_ok best0 cache0 seen rs row :
  dims_ok -> best0 <> [] -> visit_inv best0 cache0 seen rs -> fresh_row best0 cache0 row ->
  exists rs', visit_neighbor metric q ef rs row = Ret rs'.
Proof.
  intros Hd Hb Hi Hf. destruct row as [i v].
  assert (Hne : best rs <> []).
  { intros E. pose proof (vi_len _ _ _ _ Hi) as Hl. rewrite E in Hl.
    destruct best0; [done|simpl in *; lia]. }
  unfold visit_neighbor. case_bool_decide; [eauto|].
  destruct (cache_of rs !! i) as [e|]; simpl.
  - destruct (admit_test_ok (best rs) (distance e) Hne) as [[] ->]; simpl; eauto.
  - destruct Hf as (Hrow & _). destruct (Hd _ Hrow) as [d Hm]. simpl in Hm.
    rewrite Hm. simpl.
    destruct (admit_test_ok (best rs) d Hne) as [[] ->]; simpl; eauto.
Qed.

Lemma visit_fold_ok best0 cache0 rows seen rs :
  dims_ok -> best0 <> [] -> visit_inv best0 cache0 seen rs ->
  (forall row, row ∈ rows -> fresh_row best0 cache0 row) ->
  exists rs', ofold_left (visit_neighbor metric q ef) rows rs = Ret rs'.
Proof.
  intros Hd Hb. revert seen rs.
  induction rows as [|row rows IH]; intros seen rs Hi Hf; simpl; [eauto|].
  assert (Hrow : fresh_row best0 cache0 row) by (apply Hf; by left).
  destruct (visit_ok _ _ _ _ _ Hd Hb Hi Hrow) as [rs1 Hv]. rewrite Hv. simpl.
  apply (IH (seen ++ [row.1])); [by eapply visit_step|]. intros; apply Hf; by right.
Qed.

(** ** The round *)

(** What holds of the state between rounds. *)
Record search_inv (st : search_state V) : Prop := {
  si_nodup : NoDup (map fst (currentBest st));
  si_sorted : Sorted dist_le (currentBest st);
  si_size : (length (currentBest st) <= max 1 ef)%nat;
  si_best c : c ∈ currentBest st -> node_dist c.1 c.2;
  si_cache : cache_ok (cache st)
}.

(** The cache of [st2] extends that of [st1]. *)
Definition cache_sub (c1 c2 : gmap Z (cache_entry V)) : Prop :=
  forall i e, c1 !! i = Some e -> c2 !! i = Some e.

Lemma sql_in_excluded i (l : list candidate) (c : gmap Z (cache_entry V)) :
  sql_in i (sql_list l ++ cache_keys c) = false -> (i ∉ map fst l) /\ c !! i = None.
Proof.
  unfold sql_in. rewrite existsb_app. intros [Hl Hc]%orb_false_iff. split.
  - intros (x & <- & Hx)%list_elem_of_In%in_map_iff.
    assert (Hin : In (inject_Z x.1) (sql_list l))
      by (apply in_flat_map; exists x; split; [done|by left]).
    apply sql_in_member in Hin. unfold sql_in in Hin. congruence.
  - destruct (c !! i) as [e|] eqn:He; [|done]. exfalso.
    assert (Hin : In (inject_Z i) (cache_keys c)).
    { apply in_map_iff. exists (i, e). split; [done|].
      apply list_elem_of_In, elem_of_map_to_list, He. }
    apply sql_in_member in Hin. unfold sql_in in Hin. congruence.
Qed.

(** The rows of a round's neighbour query are fresh. *)
Lemma neighbors_fresh st srcs layer row :
  row ∈ neighbors s srcs layer (sql_list (currentBest st) ++ cache_keys (cache st)) ->
  fresh_row (currentBest st) (cache st) row.
Proof.
  intros Hrow. split; [by eapply neighbors_member|].
  by apply sql_in_excluded, (neighbors_excluded s srcs layer).
Qed.

Lemma take_sort_member ef' l c : c ∈ take ef' (sort_by_dist l) -> c ∈ l.
Proof.
  intros Hc%(subseteq_take ef'). by rewrite (sort_by_dist_perm l) in Hc.
Qed.

Lemma take_sort_nodup ef' (l : list candidate) :
  NoDup (map fst l) -> NoDup (map fst (take ef' (sort_by_dist l))).
Proof.
  intros Hl. rewrite <- firstn_map. apply NoDup_take.
  apply NoDup_ListNoDup. apply NoDup_ListNoDup in Hl.
  eapply Permutation_NoDup; [|exact Hl].
  apply Permutation_map. symmetry. apply sort_by_dist_perm.
Qed.

(** The state a round computes from the loop's final variables. *)
Lemma search_inv_after st seen rs :
  search_inv st ->
  visit_inv (currentBest st) (cache st) seen rs ->
  search_inv {| currentBest := take ef (sort_by_dist (best rs)); cache := cache_of rs |}.
Proof.
  intros Hs Hi. split; simpl.
  - apply take_sort_nodup, (vi_nodup _ _ _ _ Hi).
  - apply sort_take_sorted.
  - rewrite length_take. lia.
  - intros c Hc%take_sort_member. destruct (vi_best _ _ _ _ Hi c Hc); [|done].
    by apply (si_best _ Hs).
  - apply (vi_cache _ _ _ _ Hi).
Qed.

(** C6: the filter [!cache[nodeId] || !cache[nodeId][layer]] of
    [filteredCandidates] keeps every candidate: it is applied to the
    [[nodeId, dist]] pairs, whose key is never a key of [cache], and the
    entries have no per-layer flag.  Every round re-expands the whole
    best list, at every layer. *)
Theorem filteredCandidates_all (c : gmap Z (cache_entry V)) layer (l : list candidate) :
  List.filter (not_expanded c layer) l = l.
Proof. apply filter_all_true. intros x. apply not_expanded_true. Qed.

Lemma filter_candidates (c : gmap Z (cache_entry V)) layer (l : list candidate) :
  List.filter (not_expanded c layer) l = l.
Proof. apply filter_all_true. intros x. apply not_expanded_true. Qed.

(** What a round that returns does: either it stops without a change
    (no candidate, or no neighbour row), or it folds [visit_neighbor] over
    a non-empty list of rows and sorts and truncates the result. *)
Lemma round_Ret_cases layer st b st' :
  round metric s q ef layer st = Ret (b, st') ->
  (b = false /\ st' = st) \/
  exists rows rs,
    rows = neighbors s (sql_list (currentBest st)) layer
             (sql_list (currentBest st) ++ cache_keys (cache st)) /\
    rows <> [] /\ currentBest st <> [] /\
    ofold_left (visit_neighbor metric q ef) rows
      {| best := currentBest st; cache_of := cache st;
         newCandidates := ∅; improved := false |} = Ret rs /\
    b = improved rs /\
    st' = {| currentBest := take ef (sort_by_dist (best rs)); cache := cache_of rs |}.
Proof.
  unfold round. rewrite filter_candidates.
  destruct (currentBest st) as [|c0 cs] eqn:Hb; [intros [= <- <-]; by left|].
  destruct (neighbors _ _ _ _) as [|r0 rows] eqn:Hr; [intros [= <- <-]; by left|].
  intros (rs & Hrs & Hk)%obind_Ret_inv. injection Hk as <- <-. right.
  exists (r0 :: rows), rs. by split_and!.
Qed.

Lemma round_preserves layer st b st' :
  search_inv st -> round metric s q ef layer st = Ret (b, st') ->
  search_inv st' /\ cache_sub (cache st) (cache st') /\
  (b = true -> exists i, cache st !! i = None /\ is_Some (cache st' !! i)).
Proof.
  intros Hs [[-> ->]|(rows & rs & Hrows & Hne & _ & Hrun & -> & ->)]%round_Ret_cases.
  - split_and!; [done | by intros ?? | discriminate].
  - assert (Hf : forall row, row ∈ rows -> fresh_row (currentBest st) (cache st) row)
      by (intros row Hrow; subst rows; by eapply neighbors_fresh).
    pose proof (visit_fold _ _ _ _ _ _ (visit_inv_start _ _ (si_nodup _ Hs) (si_cache _ Hs))
                  Hf Hrun) as Hi.
    split_and!; [by eapply search_inv_after | intros i e; apply (vi_grow _ _ _ _ Hi) |].
    intros _. destruct rows as [|row rows]; [done|].
    destruct (Hf row) as (_ & _ & Hfresh); [by left|].
    exists row.1. split; [done|]. apply (vi_seen _ _ _ _ Hi). simpl. by left.
Qed.

Lemma round_ok layer st :
  dims_ok -> search_inv st -> exists r, round metric s q ef layer st = Ret r.
Proof.
  intros Hd Hs. unfold round. rewrite filter_candidates.
  pose proof (neighbors_fresh st) as Hf.
  pose proof (visit_inv_start _ _ (si_nodup _ Hs) (si_cache _ Hs)) as Hi.
  destruct (currentBest st) as [|c0 cs] eqn:Hb; [eauto|].
  destruct (neighbors _ _ _ _) as [|r0 rows] eqn:Hr; [eauto|].
  destruct (visit_fold_ok (c0 :: cs) (cache st) (r0 :: rows) [] _ Hd ltac:(done) Hi)
    as [rs ->]; [|simpl; eauto].
  intros row Hrow. apply (Hf (sql_list (c0 :: cs)) layer). by rewrite Hr.
Qed.

(** C33: from a state satisfying the invariant of the search (no
    duplicate ids, sorted by distance, at most [max 1 ef] candidates, true
    distances, a sound cache), a round returns when every node has a
    distance to the query, and whatever it returns satisfies the
    invariant again, only adds cache entries, and has added one when it
    reports an improvement. *)
Theorem round_inv layer st :
  search_inv st ->
  (dims_ok -> exists r, round metric s q ef layer st = Ret r) /\
  forall b st', round metric s q ef layer st = Ret (b, st') ->
    search_inv st' /\ cache_sub (cache st) (cache st') /\
    (b = true -> exists i, cache st !! i = None /\ is_Some (cache st' !! i)).
Proof.
  intros Hs. split; [intros Hd; exact (round_ok layer st Hd Hs)|].
  intros b st' Hr. exact (round_preserves layer st b st' Hs Hr).
Qed.

End Round.
