(* ===== verification/Search.v ===== *)
(** * The whole search: termination, the ranked-answer contract, findings

    [layer_pass] (the [while (improved)] loop with fuel), [descend] (the
    layer loop) and [searchWithSql_ids] keep [search_inv]; with the fuel
    [search_fuel] a layer never runs out, because every improving round
    adds a node of the table to the cache ([round_preserves]) and the cache
    never holds more keys than the table has rows ([cache_size_bound]).

    The abstract contract of the engine is [ranked_answer]: the ids are the
    first [k] of a duplicate-free list of at most [max 1 ef] candidates,
    sorted by distance, each carrying the true distance of a node of the
    table.  [search_refines] proves the code implements it; [search_total]
    that the code returns (no exception, no exhausted fuel) when every
    node's distance to the query is defined. *)

From S2P Require Import Prelude Candidates GraphStore Engine Round.

Open Scope Q_scope.

Section Search.

Context {Store V : Type} `{GraphStoreSpec Store V}.
Variable metric : V -> V -> outcome Q.
Variables (s : Store) (q : V) (ef : nat).

(** The contract: what a caller of the search may rely on. *)
Definition ranked_answer (k : nat) (ids : list Z) : Prop :=
  exists best : list candidate,
    ids = map fst (take k best) /\ NoDup (map fst best) /\ Sorted dist_le best /\
    (length best <= max 1 ef)%nat /\
    forall c, c ∈ best -> node_dist metric s q c.1 c.2.

Lemma cache_size_bound (c : gmap Z (cache_entry V)) :
  cache_ok metric s q c -> (size c <= length (nodes s))%nat.
Proof.
  intros Hc. rewrite <- size_dom.
  transitivity (size (list_to_set (map fst (nodes s)) : gset Z));
    [|rewrite size_list_to_set_le, length_map; lia].
  apply subseteq_size. intros i [e He]%elem_of_dom.
  apply elem_of_list_to_set. destruct (Hc i e He) as [Hn _].
  apply list_elem_of_In, in_map_iff. exists (i, data e). split; [done|].
  by apply list_elem_of_In.
Qed.

Lemma cache_sub_size (c1 c2 : gmap Z (cache_entry V)) :
  cache_sub c1 c2 -> (size c1 <= size c2)%nat /\
  ((exists i, c1 !! i = None /\ is_Some (c2 !! i)) -> (size c1 < size c2)%nat).
Proof.
  intros Hsub. rewrite <- !size_dom.
  assert (Hd : dom c1 ⊆ dom c2)
    by (intros j [e He]%elem_of_dom; apply elem_of_dom; eexists; by apply Hsub).
  split; [by apply subseteq_size|].
  intros (i & Hi & Hi2). apply subset_size. split; [done|].
  intros Hd'. apply elem_of_dom in Hi2. apply Hd', elem_of_dom in Hi2.
  destruct Hi2; congruence.
Qed.

Lemma layer_pass_inv layer fuel st st' :
  search_inv metric s q ef st -> layer_pass metric s q ef layer fuel st = Ret st' ->
  search_inv metric s q ef st'.
Proof.
  revert st. induction fuel as [|fuel IH]; intros st Hs Hrun; simpl in Hrun; [done|].
  destruct (obind_Ret_inv _ _ _ Hrun) as ([b st1] & Hr & Hk).
  destruct (round_preserves metric s q ef layer st b st1 Hs Hr) as (Hs1 & _).
  destruct b; simpl in Hk; [by apply (IH st1) | by injection Hk as <-].
Qed.

Lemma layer_pass_total layer fuel st :
  dims_ok metric s q -> search_inv metric s q ef st ->
  (length (nodes s) - size (cache st) < fuel)%nat ->
  exists st', layer_pass metric s q ef layer fuel st = Ret st'.
Proof.
  intros Hd. revert st. induction fuel as [|fuel IH]; intros st Hs Hf; [lia|].
  simpl. destruct (round_ok metric s q ef layer st Hd Hs) as [[b st1] Hr].
  rewrite Hr. simpl.
  destruct (round_preserves metric s q ef layer st b st1 Hs Hr) as (Hs1 & Hsub & Hgrow).
  destruct b; [|eauto]. apply IH; [done|].
  destruct (cache_sub_size _ _ Hsub) as [_ Hlt].
  specialize (Hlt (Hgrow eq_refl)).
  pose proof (cache_size_bound _ (si_cache _ _ _ _ _ Hs1)). lia.
Qed.

Lemma descend_inv fuel layer st st' :
  search_inv metric s q ef st -> descend metric s q ef fuel layer st = Ret st' ->
  search_inv metric s q ef st'.
Proof.
  revert st. induction layer as [|layer IH]; intros st Hs Hrun; simpl in Hrun;
    destruct (obind_Ret_inv _ _ _ Hrun) as (st1 & Hp & Hk);
    pose proof (layer_pass_inv _ _ _ _ Hs Hp) as Hs1; [by injection Hk as <-|].
  by apply (IH st1).
Qed.

Lemma descend_total layer st :
  dims_ok metric s q -> search_inv metric s q ef st ->
  exists st', descend metric s q ef (search_fuel s) layer st = Ret st'.
Proof.
  intros Hd. revert st. induction layer as [|layer IH]; intros st Hs; cbn [descend].
  - destruct (layer_pass_total (Z.of_nat 0) (search_fuel s) st Hd Hs) as [st1 ->];
      [unfold search_fuel; lia|]. simpl. eauto.
  - destruct (layer_pass_total (Z.of_nat (S layer)) (search_fuel s) st Hd Hs) as [st1 Hp];
      [unfold search_fuel; lia|].
    rewrite Hp. simpl. apply IH. by eapply layer_pass_inv.
Qed.

Lemma init_best_inv r init :
  init_best metric s q r = Ret init ->
  search_inv metric s q ef {| currentBest := init; cache := ∅ |}.
Proof.
  unfold init_best. destruct (random_node s r) as [[i v]|] eqn:Hr; simpl.
  - destruct (metric v q) as [d| |] eqn:Hm; simpl; try discriminate.
    intros [= <-]. split; simpl.
    + repeat constructor. set_solver.
    + repeat constructor.
    + lia.
    + intros c ->%list_elem_of_singleton. exists v. split; [|done].
      by apply (random_node_member s r).
    + intros i' e. by rewrite lookup_empty.
  - intros [= <-]. split; simpl.
    + apply NoDup_nil_2.
    + constructor.
    + lia.
    + by intros c ?%elem_of_nil.
    + intros i' e. by rewrite lookup_empty.
Qed.

Lemma search_final_state k r ids :
  searchWithSql_ids metric s q k ef r = Ret ids ->
  exists st, search_inv metric s q ef st /\ ids = map fst (take k (currentBest st)).
Proof.
  unfold searchWithSql_ids.
  intros (init & Hinit & Hrun)%obind_Ret_inv.
  destruct (obind_Ret_inv _ _ _ Hrun) as (st & Hd & Hk). injection Hk as <-.
  exists st. split; [|done]. exact (descend_inv _ _ _ _ (init_best_inv r init Hinit) Hd).
Qed.

(** C1: the search implements its contract: every result of
    [searchWithSql] is the [k]-prefix of a duplicate-free best list of at
    most [max 1 ef] candidates, sorted by ascending distance, each with
    the true distance of a node of the table. *)
Theorem search_refines k r ids :
  searchWithSql_ids metric s q k ef r = Ret ids -> ranked_answer k ids.
Proof.
  intros (st & Hs & ->)%search_final_state.
  exists (currentBest st). split_and!; [done | apply Hs.. ].
Qed.

(** C2: the search terminates with a result, with no exception and no
    exhausted fuel, whenever the distance of every node to the query is
    defined (for [euclideanDistanceSquared]: all vectors have the query's
    length). *)
Theorem search_total k r :
  dims_ok metric s q -> exists ids, searchWithSql_ids metric s q k ef r = Ret ids.
Proof.
  intros Hd. unfold searchWithSql_ids.
  assert (Hinit : exists init, init_best metric s q r = Ret init).
  { unfold init_best. destruct (random_node s r) as [[i v]|] eqn:Hr; [|eauto].
    destruct (Hd (i, v)) as [d Hm]; [by apply (random_node_member s r)|].
    simpl in Hm. rewrite Hm. simpl. eauto. }
  destruct Hinit as [init Hinit]. rewrite Hinit. simpl.
  destruct (descend_total (Z.to_nat (max_layer (count s))) _ Hd (init_best_inv r init Hinit))
    as [st ->].
  simpl. eauto.
Qed.

(** C3: a returned list of ids has no duplicates, at most [k] and at most
    [max 1 ef] entries, and only ids of the node table, so no more
    entries than the table has rows. *)
Corollary search_result_bounds k r ids :
  searchWithSql_ids metric s q k ef r = Ret ids ->
  NoDup ids /\ (length ids <= Nat.min k (max 1 ef))%nat /\
  (forall i, i ∈ ids -> i ∈ map fst (nodes s)) /\ (length ids <= length (nodes s))%nat.
Proof.
  intros (st & [Hnd _ Hlen Hb _] & ->)%search_final_state.
  set (best := currentBest st) in *.
  assert (Hin : forall i, i ∈ map fst (take k best) -> i ∈ map fst (nodes s)).
  { intros i (c & <- & Hc)%list_elem_of_In%in_map_iff.
    apply list_elem_of_In, (subseteq_take k) in Hc.
    destruct (Hb c Hc) as (v & Hv & _).
    apply list_elem_of_In, in_map_iff. exists (c.1, v). split; [done|].
    by apply list_elem_of_In. }
  assert (Hnd' : NoDup (map fst (take k best))) by (rewrite <- firstn_map; by apply NoDup_take).
  split_and!; [done | | done |].
  - rewrite length_map, length_take. lia.
  - rewrite <- (length_map fst (nodes s)). apply NoDup_incl_length.
    + by apply NoDup_ListNoDup.
    + intros i Hi. apply list_elem_of_In, Hin, list_elem_of_In, Hi.
Qed.

End Search.
