(* ===== verification/Pages.v ===== *)
(** * The two pages: [searchWithSql] of each source file, and what they show

    [searchWithSql] of [src/scripts/vectordb_utils.js] runs the engine with
    [Plain.euclideanDistanceSquared] on the float query; the one of
    [src/scripts/vectordb_utils_quantized.js] first quantizes the query at
    the default 8 bits and runs the engine with the dequantizing distance.
    Both then fetch each document with
    [SELECT text FROM read_parquet('docs.parquet') OFFSET id LIMIT 1]: the
    node id is used as a row offset ([fetch_text]), a missing row gives
    [undefined] ([None]) and a negative id makes the query throw.  The
    [text] column is taken to hold strings: a [NULL] text, which the page
    would print as [null], is not modelled.

    This file also holds the concrete runs: the spec's four-node example
    and the three behaviours the model exposes: the
    admission test compares a neighbour with the most recently pushed
    candidate instead of the worst one, distances are written into the SQL
    id lists, and [ef = 0] still returns the entry node. *)

From stdpp Require Import strings.
From S2P Require Import Prelude Distance Quantize Candidates GraphStore Engine Round Search.

Open Scope Q_scope.

(** The tables of one dataset: the index and [docs.parquet]. *)
Record dataset (V : Type) := {
  index : tables V;
  docs : list string
}.
Arguments index {V} _.
Arguments docs {V} _.

(** [SELECT text FROM read_parquet(...) OFFSET ${id} LIMIT 1], then
    [result.toArray().map(([item]) => item[1])[0]]: the text of the row at
    offset [id], [undefined] past the last row; DuckDB rejects a negative
    [OFFSET], and the query throws. *)
Definition fetch_text (docs : list string) (id : Z) : outcome (option string) :=
  if (id <? 0)%Z then Throw DatabaseError else Ret (nth_error docs (Z.to_nat id)).

(** [searchWithSql] of [vectordb_utils.js]; [Promise.all] keeps the order
    of [ids]. *)
Definition searchWithSql_plain (d : dataset (list Q)) (queryData : list Q) (k ef r : nat)
  : outcome (list (option string)) :=
  ids <- searchWithSql_ids Plain.euclideanDistanceSquared (index d) queryData k ef r ;;
  promise_all (fetch_text (docs d)) ids.

(** [searchWithSql] of [vectordb_utils_quantized.js]:
    [quantizedQueryData = quantizeVector(queryData)] and the distance with
    its default [bitsPerDimension = 8]. *)
Definition searchWithSql_quantized (d : dataset (list Z)) (queryData : list Q) (k ef r : nat)
  : outcome (list (option string)) :=
  let quantizedQueryData := quantizeVector queryData 8 in
  ids <- searchWithSql_ids (Quantized.euclideanDistanceSquared 8) (index d)
           quantizedQueryData k ef r ;;
  promise_all (fetch_text (docs d)) ids.

(** ** Dimensions *)

Lemma plain_dims_ok (t : tables (list Q)) queryData :
  (forall row, row ∈ node_rows t -> length row.2 = length queryData) ->
  dims_ok Plain.euclideanDistanceSquared t queryData.
Proof.
  intros Hl row Hrow. rewrite Plain.euclideanDistanceSquared_Ret by (by apply Hl). eauto.
Qed.

Lemma quantized_dims_ok (t : tables (list Z)) queryData :
  (forall row, row ∈ node_rows t -> length row.2 = length queryData) ->
  dims_ok (Quantized.euclideanDistanceSquared 8) t (quantizeVector queryData 8).
Proof.
  intros Hl row Hrow. unfold Quantized.euclideanDistanceSquared.
  rewrite quantizeVector_length, Hl, Nat.eqb_refl by done. simpl. eauto.
Qed.

(** ** Concrete datasets *)

Definition edge0 (i j : Z) : edge :=
  {| source_node_id := i; target_node_id := j; GraphStore.layer := 0 |}.

(** The spec's example: vectors [[0,0]], [[1,0]], [[0,1]], [[5,5]] with
    all edges at layer 0. *)
Definition spec_tables : tables (list Q) := {|
  node_rows := [(0%Z, [0; 0]); (1%Z, [1; 0]); (2%Z, [0; 1]); (3%Z, [5; 5])];
  edge_rows := [edge0 0 1; edge0 0 2; edge0 0 3; edge0 1 0; edge0 1 2; edge0 1 3;
                edge0 2 0; edge0 2 1; edge0 2 3; edge0 3 0; edge0 3 1; edge0 3 2]
|}.

(** A star around node 10 and a node 11 with two more neighbours, on a
    line: node [i] at [[x]] has distance [x * x] to the query [[0]]. *)
Definition admit_tables : tables (list Q) := {|
  node_rows := [(10%Z, [1]); (11%Z, [4]); (12%Z, [5]); (13%Z, [2]); (14%Z, [3])];
  edge_rows := [edge0 10 11; edge0 10 12; edge0 11 13; edge0 11 14]
|}.

(** Node 5 at distance 1 from the query [[0]], with an edge to node 1,
    which is the query itself. *)
Definition leak_tables : tables (list Q) := {|
  node_rows := [(5%Z, [1]); (1%Z, [0])];
  edge_rows := [edge0 5 1]
|}.

Definition one_node_tables : tables (list Q) := {|
  node_rows := [(7%Z, [1])];
  edge_rows := []
|}.

(** Six nodes on a line and six edges at layer 0; the draw 3 enters at
    node 13. *)
Definition mono_tables : tables (list Q) := {|
  node_rows := [(10%Z, [4]); (11%Z, [1]); (12%Z, [6]); (13%Z, [8]); (14%Z, [9]); (15%Z, [5])];
  edge_rows := [edge0 13 14; edge0 14 15; edge0 12 11; edge0 10 12; edge0 13 10; edge0 15 10]
|}.

(** The brute-force exact search the spec measures recall against: the
    [k] nodes of the table nearest to the query. *)
Definition exact_top {V} (metric : V -> V -> outcome Q) (t : tables V) (q : V) (k : nat)
  : outcome (list Z) :=
  ds <- ofold_left (fun acc row => d <- metric row.2 q ;; Ret (acc ++ [(row.1, d)]))
          (node_rows t) [] ;;
  Ret (map fst (take k (sort_by_dist ds))).

(** ** Lemmas for the concrete runs *)

Lemma searchWithSql_ids_draw {V} (metric : V -> V -> outcome Q) (t : tables V) q k ef r r' :
  random_row t r = random_row t r' ->
  searchWithSql_ids metric t q k ef r = searchWithSql_ids metric t q k ef r'.
Proof. intros Hr. unfold searchWithSql_ids, init_best. simpl. by rewrite Hr. Qed.

Lemma random_row_mod {V} (t : tables V) r :
  random_row t r = random_row t (r mod length (node_rows t)).
Proof.
  unfold random_row. destruct (node_rows t) as [|n ns]; [done|].
  by rewrite Nat.Div0.mod_mod.
Qed.

(** ** Concrete runs and what they show *)

(** C28: the spec's example: on the four-node graph, the query [[0, 0]]
    with [k = 2] and [ef = 4] returns node 0 and then node 1 or node 2,
    whatever node the random draw picks as entry point.  From the entry
    node 2 (at distance 1) it is [[0, 2]]: the distance 1 of node 2 is in
    the SQL lists and excludes node 1 as a target. *)
Theorem spec_example_search r :
  searchWithSql_ids Plain.euclideanDistanceSquared spec_tables [0; 0] 2 4 r = Ret [0; 1]%Z \/
  searchWithSql_ids Plain.euclideanDistanceSquared spec_tables [0; 0] 2 4 r = Ret [0; 2]%Z.
Proof.
  rewrite (searchWithSql_ids_draw _ _ _ _ _ r (r mod 4)%nat) by apply random_row_mod.
  assert (Hr : (r mod 4 < 4)%nat) by (apply Nat.mod_upper_bound; lia).
  destruct (r mod 4)%nat as [|[|[|[|m]]]];
    [left; vm_compute; reflexivity | left; vm_compute; reflexivity |
     right; vm_compute; reflexivity | left; vm_compute; reflexivity | lia].
Qed.

(** C4: the admission test [dist < currentBest[currentBest.length - 1][1]]
    compares with the LAST candidate, which after a push is the one pushed,
    not the worst of the list.  With [ef = 3], the round that expands node
    11 (at distance 16) pushes node 13 (distance 4) and then rejects node
    14 (distance 9 is not below 4), although 14 is closer than 11, which
    stays in the result; 14 is now in the cache and is never fetched
    again.  The search returns [[10, 13, 11]] and not [[10, 13, 14]]. *)
Theorem admission_against_last :
  searchWithSql_ids Plain.euclideanDistanceSquared admit_tables [0] 3 3 0 = Ret [10; 13; 11]%Z /\
  edge0 11 14 ∈ edge_rows admit_tables /\
  Plain.euclideanDistanceSquared [3] [0] = Ret 9 /\
  Plain.euclideanDistanceSquared [4] [0] = Ret 16.
Proof.
  split_and!; [vm_compute; reflexivity | | reflexivity | reflexivity].
  apply list_elem_of_In. simpl. tauto.
Qed.

(** C5: [filteredCandidates.join(",")] and [[...candidates,
    ...Object.keys(cache)].join(",")] join arrays of [[id, dist]] pairs,
    so the SQL lists contain the distances as well as the ids.  A node
    whose id equals a candidate's distance is taken as a candidate: here
    the entry node 5 is at distance 1, node 1 is in the [NOT IN] list, and
    the edge from 5 to node 1, the query itself, is never followed. *)
Theorem distance_used_as_id :
  sql_in 1 (sql_list [(5%Z, 1)]) = true /\
  edge0 5 1 ∈ edge_rows leak_tables /\
  Plain.euclideanDistanceSquared [0] [0] = Ret 0 /\
  searchWithSql_ids Plain.euclideanDistanceSquared leak_tables [0] 2 20 0 = Ret [5%Z].
Proof.
  split_and!; [reflexivity | | reflexivity | vm_compute; reflexivity].
  apply list_elem_of_In. simpl. tauto.
Qed.

(** C29: the best list starts with the entry node and is only truncated
    to [ef] by a round that finds neighbours: with [ef = 0] on a graph
    without edges the search still returns one id, more than
    [min(k, ef, count) = 0]. *)
Theorem ef_zero_returns_entry :
  searchWithSql_ids Plain.euclideanDistanceSquared one_node_tables [0] 5 0 0 = Ret [7%Z].
Proof. vm_compute. reflexivity. Qed.

(** ** Witnesses: the general theorems at concrete inputs *)

(** C17: a larger beam can find fewer of the true nearest neighbours,
    against the monotonicity the spec expects.  From node 13 with
    [ef = 2] the search reaches node 11, the nearest node; with [ef = 3]
    the round that expands nodes 10, 13 and 14 pushes node 15 (distance
    25) and then rejects node 12 (distance 36 is not below 25, the last
    pushed), which enters the cache and is never fetched again, so node
    11 behind it is never reached. *)
Theorem ef_not_monotone :
  exact_top Plain.euclideanDistanceSquared mono_tables [0] 1 = Ret [11%Z] /\
  searchWithSql_ids Plain.euclideanDistanceSquared mono_tables [0] 1 2 3 = Ret [11%Z] /\
  searchWithSql_ids Plain.euclideanDistanceSquared mono_tables [0] 1 3 3 = Ret [10%Z].
Proof. split_and!; vm_compute; reflexivity. Qed.

Lemma spec_tables_dims :
  dims_ok Plain.euclideanDistanceSquared spec_tables [0; 0].
Proof.
  apply plain_dims_ok. intros row Hrow. apply list_elem_of_In in Hrow.
  simpl in Hrow. intuition subst; reflexivity.
Qed.

Lemma search_refines_witness :
  ranked_answer Plain.euclideanDistanceSquared spec_tables [0; 0] 4 2 [0; 1]%Z.
Proof. apply (search_refines _ _ _ 4 2 0). vm_compute. reflexivity. Defined.

Lemma search_total_witness :
  exists ids, searchWithSql_ids Plain.euclideanDistanceSquared spec_tables [0; 0] 2 4 0 = Ret ids.
Proof. apply search_total. exact spec_tables_dims. Defined.

Lemma search_result_bounds_witness :
  NoDup [0; 1]%Z /\ (length [0; 1]%Z <= Nat.min 2 (max 1 4))%nat /\
  (forall i, i ∈ [0; 1]%Z -> i ∈ map fst (nodes spec_tables)) /\
  (length [0; 1]%Z <= length (nodes spec_tables))%nat.
Proof.
  apply (search_result_bounds Plain.euclideanDistanceSquared spec_tables [0; 0] 4 2 0).
  vm_compute. reflexivity.
Defined.

(** The state after the entry point 3 of the spec's example. *)
Definition spec_state0 : search_state (list Q) :=
  {| currentBest := [(3%Z, 50)]; cache := ∅ |}.

Lemma spec_state0_inv :
  search_inv Plain.euclideanDistanceSquared spec_tables [0; 0] 4 spec_state0.
Proof.
  split; simpl.
  - apply NoDup_singleton.
  - repeat constructor.
  - lia.
  - intros c ->%list_elem_of_singleton. exists [5; 5]. split; [|reflexivity].
    apply list_elem_of_In. simpl. tauto.
  - intros i e. by rewrite lookup_empty.
Qed.

Lemma round_inv_witness :
  exists b st', round Plain.euclideanDistanceSquared spec_tables [0; 0] 4 0%Z spec_state0
                = Ret (b, st') /\
                search_inv Plain.euclideanDistanceSquared spec_tables [0; 0] 4 st'.
Proof.
  destruct (round Plain.euclideanDistanceSquared spec_tables [0; 0] 4 0%Z spec_state0)
    as [[b st']| |] eqn:E; [| vm_compute in E; discriminate ..].
  exists b, st'. split; [reflexivity|].
  apply (proj2 (round_inv Plain.euclideanDistanceSquared spec_tables [0; 0] 4 0%Z spec_state0
                 spec_state0_inv) b st' E).
Defined.
