(* ===== verification/Render.v ===== *)
(** * Output rendering: [output.innerHTML = out.map((t) => `<p>${t}</p>`).join('')]

    The last line of [performSearch] in both source files writes the
    texts [searchWithSql] returned into the page as HTML: each text in a
    template literal between [<p>] and [</p>], the pieces joined with the
    empty separator.  A text is a string, or [undefined] when the
    document query found no row (see [Pages.fetch_text]); the template
    literal prints the latter as the word [undefined].  The text is not
    escaped.

    [render] is that expression; [Session] keeps the list of texts in
    [output], and the page shows [render] of it.  The theorems: the HTML
    determines the passages when no passage contains [<]
    ([render_injective]), and two different results can show the same
    HTML otherwise ([render_collisions]). *)

From Stdlib Require Import Ascii.
From stdpp Require Import strings.
From S2P Require Import Prelude.

(** ** The expression *)

(** [`<p>${t}</p>`]. *)
Definition template_p (t : option string) : string :=
  String.append "<p>"
    (String.append (match t with Some s => s | None => "undefined" end) "</p>").

(** [out.map(template_p).join('')]: with the empty separator, [join] is
    the concatenation of the pieces. *)
Definition render (out : list (option string)) : string :=
  foldr (fun t acc => String.append (template_p t) acc) EmptyString out.

(** A text with no [<]: it cannot open or close a tag. *)
Fixpoint no_lt (s : string) : bool :=
  match s with
  | EmptyString => true
  | String c s' => negb (Ascii.eqb c "<"%char) && no_lt s'
  end.

(** ** Lemmas on strings *)

Lemma string_append_assoc (a b c : string) :
  String.append (String.append a b) c = String.append a (String.append b c).
Proof. induction a as [|x a IH]; [done|]. by rewrite !append_String, IH. Qed.

(** Up to the first [<], two strings without [<] followed by [<] agree. *)
Lemma append_lt_inj a b x y :
  no_lt a = true -> no_lt b = true ->
  String.append a (String "<"%char x) = String.append b (String "<"%char y) -> a = b /\ x = y.
Proof.
  revert b. induction a as [|c a IH]; intros [|c' b]; cbn [no_lt];
    rewrite ?append_EmptyString, ?append_String; intros Ha Hb H.
  - by injection H.
  - injection H as <- _. done.
  - injection H as -> _. done.
  - injection H as <- H. apply andb_prop in Ha as [_ Ha], Hb as [_ Hb].
    destruct (IH b Ha Hb H) as [-> ->]. done.
Qed.

Lemma render_cons t ts :
  render (t :: ts) =
  String "<"%char (String "p"%char (String ">"%char
    (String.append (match t with Some s => s | None => "undefined" end)
       (String "<"%char (String "/"%char (String "p"%char (String ">"%char (render ts)))))))).
Proof.
  unfold render at 1. cbn [foldr]. unfold template_p.
  by rewrite !append_String, append_EmptyString, string_append_assoc, !append_String,
    append_EmptyString.
Qed.

(** ** Theorems *)

(** C31: the HTML the page shows determines the passages when none of
    them contains [<]: two lists of texts without [<] that render to the
    same [innerHTML] are equal, so the reader sees each passage of the
    result, in order. *)
Theorem render_injective ts1 ts2 :
  Forall (fun t => no_lt t = true) ts1 -> Forall (fun t => no_lt t = true) ts2 ->
  render (map Some ts1) = render (map Some ts2) -> ts1 = ts2.
Proof.
  revert ts2. induction ts1 as [|t1 ts1 IH]; intros [|t2 ts2] H1 H2; cbn [map];
    rewrite ?render_cons; try done.
  intros H. injection H as H. apply Forall_cons in H1 as [Ht1 H1], H2 as [Ht2 H2].
  destruct (append_lt_inj _ _ _ _ Ht1 Ht2 H) as [-> Hr]. injection Hr as Hr.
  f_equal. by apply IH.
Qed.

(** C32: the text is inserted as HTML without escaping: a passage that
    contains [</p><p>] shows as two passages, and a document row that
    was not found ([undefined]) shows as a passage reading "undefined". *)
Theorem render_collisions :
  render [Some "a</p><p>b"] = render [Some "a"; Some "b"] /\
  render [None] = render [Some "undefined"] /\
  [Some "a</p><p>b"] <> [Some "a"; Some "b"] /\ [None] <> [Some "undefined"].
Proof. split_and!; [reflexivity | reflexivity | discriminate | discriminate]. Qed.

Lemma render_injective_witness : ["zero"; "one"] = ["zero"; "one"].
Proof.
  apply render_injective; [repeat constructor | repeat constructor | reflexivity].
Defined.
