(* ===== verification/Session.v ===== *)
(** * SearchSession: the page around [searchWithSql]

    The globals of both source files ([cachedPath], [conn], the files
    registered in the DuckDB instance, [output], [search.disabled],
    [instantMode.checked], [path.value], [textInput.value], the timer of
    [debounce] and [status.textContent]) form the record [page].  [performSearch], [loadIndex] and
    the event handlers are asynchronous: every [await] is a point where the
    call is suspended and other handlers may run.  A suspended call is a
    [task] whose [task_pc] says which [await] it waits on; the system
    steps by an event of the user ([event]), by the completion of the
    operation a task waits on ([Resume]), or by its rejection ([Fail]: a
    network error of [fetch], a failure of the encoder, of [db.connect()],
    [conn.close()], [registerFileBuffer] or of a query): no handler
    catches, so the call's promise rejects and the code after the [await]
    of its caller never runs ([reject]).  [exec] is the step function,
    executable, and [run] runs a list of events.  A [searchWithSql] that
    throws is a [reject] at its completion step; the model's
    [searchWithSql] never runs out of fuel ([Search.search_total]), and
    that case is mapped to a rejection too.

    A few awaits are taken as one step: [searchWithSql] is called with
    the connection and the path at the call and runs at its completion, on
    the node and edge files registered at that time and the documents of
    the path of the call; the fetch and the [registerFileBuffer] of one
    file are one step; [embed] is one step.  The schedules of the model
    are schedules of the page, so a run of the model is a run of the
    page; the invariants are proved for the schedules of the model.  The
    transformer encoder is the function [enc], the three files of a path
    are [nodes_of], [edges_of] and [docs_of], and [search] is the
    [searchWithSql] of the page ([searchWithSql_plain] or
    [searchWithSql_quantized]).  A query on a closed connection, or on a
    file not registered yet, throws [DatabaseError].

    The status line is the field [status] ([status_msg]): every write of
    [status.textContent] outside [searchWithSql] is a [set_status] at the
    same point of the step, and [searchWithSql] writes "Searching HNSW
    Index..." at its call.  Its other messages are written during its
    completion step and, when it returns, overwritten by "Ready for
    user!"; when it throws on the closed connection or a missing file no
    message is written.  A [LengthMismatch] thrown inside its layer loop
    (vectors of different lengths) would leave a per-layer message the
    model does not track: it keeps the status written before.

    After the section: the page of [vectordb_utils_quantized.js]
    ([exec_quantized], [run_quantized]) and the tactics of symbolic
    execution the theorems of [Schedules] use. *)

From stdpp Require Import strings gmap.
From S2P Require Import Prelude GraphStore Pages.

(** Where an [await] of [loadIndex] is suspended. *)
Inductive load_pc :=
| LoadConnect            (* conn = await db.connect() *)
| LoadNodes (p : string) (* fetch and register of `${p}/nodes.parquet` *)
| LoadEdges (p : string) (* fetch and register of `${p}/edges.parquet` *).

(** Where an [await] of [performSearch] is suspended. *)
Inductive task_pc :=
| Embedding (text : string)                   (* await embed(textInput.value) *)
| Closing (q : list Q) (c : nat)              (* await conn.close() *)
| Loading (q : option (list Q)) (l : load_pc) (* await loadIndex(); [None]: called by a handler *)
| Connecting (q : list Q)                     (* conn = await db.connect() *)
| Searching (q : list Q) (c : nat) (p : string) (* await searchWithSql(conn, queryData, 5, cachedPath, 20) *).

(** The code that awaits the call, and runs after it returns. *)
Inductive caller :=
| FromStartup | FromInput | FromSearchButton | FromBlogs | FromFrankenstein | FromShakespeare.

(** The messages [status.textContent] shows; the ones overwritten before
    the next [await] ("HNSW Index Loaded.", and the progress messages
    of [searchWithSql] when it returns) never show and have no
    constructor. *)
Inductive status_msg :=
| LoadingModel   (* "Loading embedding model..." *)
| ReadyForUser   (* "Ready for user!" *)
| Analysing      (* "Analysing..." *)
| SearchingText  (* "Searching..." *)
| LoadingIndex   (* "Loading HNSW Index..." *)
| SearchingIndex (* "Searching HNSW Index..." *)
| BiggerDataset  (* "This dataset is bigger - hit search when you're ready." *).

Record task := {
  origin : caller;
  pc : task_pc
}.

Record page := {
  path_value : string;
  text_value : string;
  instant : bool;
  search_disabled : bool;
  timer : bool;
  cachedPath : string;
  conn : option nat;
  next_conn : nat;
  closed : gset nat;
  reg_nodes : option string;
  reg_edges : option string;
  output : option (list (option string));
  tasks : gmap nat task;
  next_task : nat;
  status : status_msg
}.

Inductive event :=
| TypeText (s : string)   (* the user edits textInput: the input event *)
| SetPath (s : string)    (* the user edits the path field *)
| SetInstant (b : bool)   (* the user toggles instantMode *)
| TimerFires              (* the timeout of debounce expires *)
| ClickSearch | ClickBlogs | ClickFrankenstein | ClickShakespeare
| Resume (i : nat) (r : nat) (* what task [i] awaits completes; [r] is the random draw *)
| Fail (i : nat)             (* what task [i] awaits rejects *).

Section Session.

Context {V : Type}.
Variable enc : string -> list Q.
Variable nodes_of : string -> list (Z * V).
Variable edges_of : string -> list edge.
Variable docs_of : string -> list string.
Variable search : dataset V -> list Q -> nat -> nat -> nat -> outcome (list (option string)).

(** Assignments to one field of the page. *)
Definition set_path_value (x : string) (pg : page) : page :=
  {| path_value := x; text_value := text_value pg; instant := instant pg;
     search_disabled := search_disabled pg; timer := timer pg; cachedPath := cachedPath pg;
     conn := conn pg; next_conn := next_conn pg; closed := closed pg;
     reg_nodes := reg_nodes pg; reg_edges := reg_edges pg; output := output pg;
     tasks := tasks pg; next_task := next_task pg; status := status pg |}.

Definition set_text_value (x : string) (pg : page) : page :=
  {| path_value := path_value pg; text_value := x; instant := instant pg;
     search_disabled := search_disabled pg; timer := timer pg; cachedPath := cachedPath pg;
     conn := conn pg; next_conn := next_conn pg; closed := closed pg;
     reg_nodes := reg_nodes pg; reg_edges := reg_edges pg; output := output pg;
     tasks := tasks pg; next_task := next_task pg; status := status pg |}.

Definition set_instant (x : bool) (pg : page) : page :=
  {| path_value := path_value pg; text_value := text_value pg; instant := x;
     search_disabled := search_disabled pg; timer := timer pg; cachedPath := cachedPath pg;
     conn := conn pg; next_conn := next_conn pg; closed := closed pg;
     reg_nodes := reg_nodes pg; reg_edges := reg_edges pg; output := output pg;
     tasks := tasks pg; next_task := next_task pg; status := status pg |}.

Definition set_search_disabled (x : bool) (pg : page) : page :=
  {| path_value := path_value pg; text_value := text_value pg; instant := instant pg;
     search_disabled := x; timer := timer pg; cachedPath := cachedPath pg; conn := conn pg;
     next_conn := next_conn pg; closed := closed pg; reg_nodes := reg_nodes pg;
     reg_edges := reg_edges pg; output := output pg; tasks := tasks pg;
     next_task := next_task pg; status := status pg |}.

Definition set_timer (x : bool) (pg : page) : page :=
  {| path_value := path_value pg; text_value := text_value pg; instant := instant pg;
     search_disabled := search_disabled pg; timer := x; cachedPath := cachedPath pg;
     conn := conn pg; next_conn := next_conn pg; closed := closed pg;
     reg_nodes := reg_nodes pg; reg_edges := reg_edges pg; output := output pg;
     tasks := tasks pg; next_task := next_task pg; status := status pg |}.

Definition set_cachedPath (x : string) (pg : page) : page :=
  {| path_value := path_value pg; text_value := text_value pg; instant := instant pg;
     search_disabled := search_disabled pg; timer := timer pg; cachedPath := x;
     conn := conn pg; next_conn := next_conn pg; closed := closed pg;
     reg_nodes := reg_nodes pg; reg_edges := reg_edges pg; output := output pg;
     tasks := tasks pg; next_task := next_task pg; status := status pg |}.

Definition set_conn (x : option nat) (pg : page) : page :=
  {| path_value := path_value pg; text_value := text_value pg; instant := instant pg;
     search_disabled := search_disabled pg; timer := timer pg; cachedPath := cachedPath pg;
     conn := x; next_conn := next_conn pg; closed := closed pg; reg_nodes := reg_nodes pg;
     reg_edges := reg_edges pg; output := output pg; tasks := tasks pg;
     next_task := next_task pg; status := status pg |}.

Definition set_next_conn (x : nat) (pg : page) : page :=
  {| path_value := path_value pg; text_value := text_value pg; instant := instant pg;
     search_disabled := search_disabled pg; timer := timer pg; cachedPath := cachedPath pg;
     conn := conn pg; next_conn := x; closed := closed pg; reg_nodes := reg_nodes pg;
     reg_edges := reg_edges pg; output := output pg; tasks := tasks pg;
     next_task := next_task pg; status := status pg |}.

Definition set_closed (x : gset nat) (pg : page) : page :=
  {| path_value := path_value pg; text_value := text_value pg; instant := instant pg;
     search_disabled := search_disabled pg; timer := timer pg; cachedPath := cachedPath pg;
     conn := conn pg; next_conn := next_conn pg; closed := x; reg_nodes := reg_nodes pg;
     reg_edges := reg_edges pg; output := output pg; tasks := tasks pg;
     next_task := next_task pg; status := status pg |}.

Definition set_reg_nodes (x : option string) (pg : page) : page :=
  {| path_value := path_value pg; text_value := text_value pg; instant := instant pg;
     search_disabled := search_disabled pg; timer := timer pg; cachedPath := cachedPath pg;
     conn := conn pg; next_conn := next_conn pg; closed := closed pg; reg_nodes := x;
     reg_edges := reg_edges pg; output := output pg; tasks := tasks pg;
     next_task := next_task pg; status := status pg |}.

Definition set_reg_edges (x : option string) (pg : page) : page :=
  {| path_value := path_value pg; text_value := text_value pg; instant := instant pg;
     search_disabled := search_disabled pg; timer := timer pg; cachedPath := cachedPath pg;
     conn := conn pg; next_conn := next_conn pg; closed := closed pg;
     reg_nodes := reg_nodes pg; reg_edges := x; output := output pg; tasks := tasks pg;
     next_task := next_task pg; status := status pg |}.

Definition set_output (x : option (list (option string))) (pg : page) : page :=
  {| path_value := path_value pg; text_value := text_value pg; instant := instant pg;
     search_disabled := search_disabled pg; timer := timer pg; cachedPath := cachedPath pg;
     conn := conn pg; next_conn := next_conn pg; closed := closed pg;
     reg_nodes := reg_nodes pg; reg_edges := reg_edges pg; output := x; tasks := tasks pg;
     next_task := next_task pg; status := status pg |}.

Definition set_tasks (x : gmap nat task) (pg : page) : page :=
  {| path_value := path_value pg; text_value := text_value pg; instant := instant pg;
     search_disabled := search_disabled pg; timer := timer pg; cachedPath := cachedPath pg;
     conn := conn pg; next_conn := next_conn pg; closed := closed pg;
     reg_nodes := reg_nodes pg; reg_edges := reg_edges pg; output := output pg; tasks := x;
     next_task := next_task pg; status := status pg |}.

Definition set_pc (pg : page) (i : nat) (o : caller) (c : task_pc) : page :=
  set_tasks (<[i := {| origin := o; pc := c |}]> (tasks pg)) pg.

Definition set_next_task (x : nat) (pg : page) : page :=
  {| path_value := path_value pg; text_value := text_value pg; instant := instant pg;
     search_disabled := search_disabled pg; timer := timer pg; cachedPath := cachedPath pg;
     conn := conn pg; next_conn := next_conn pg; closed := closed pg;
     reg_nodes := reg_nodes pg; reg_edges := reg_edges pg; output := output pg;
     tasks := tasks pg; next_task := x; status := status pg |}.

Definition set_status (x : status_msg) (pg : page) : page :=
  {| path_value := path_value pg; text_value := text_value pg; instant := instant pg;
     search_disabled := search_disabled pg; timer := timer pg; cachedPath := cachedPath pg;
     conn := conn pg; next_conn := next_conn pg; closed := closed pg;
     reg_nodes := reg_nodes pg; reg_edges := reg_edges pg; output := output pg;
     tasks := tasks pg; next_task := next_task pg; status := x |}.

(** A new call, suspended at its first [await]. *)
Definition spawn (o : caller) (c : task_pc) (pg : page) : page :=
  set_next_task (S (next_task pg)) (set_pc pg (next_task pg) o c).

(** [await db.connect()]: a fresh connection. *)
Definition connect (pg : page) : nat * page :=
  (next_conn pg, set_next_conn (S (next_conn pg)) pg).

(** The dataset a search sees: the node and edge files registered under
    [nodes.parquet] and [edges.parquet], and [`${path}/docs.parquet`]. *)
Definition mk_dataset (pn pe p : string) : dataset V :=
  {| index := {| node_rows := nodes_of pn; edge_rows := edges_of pe |}; docs := docs_of p |}.

(** [await searchWithSql(conn, queryData, 5, path, 20)] with connection
    [c] and path [p], run on the files registered at its completion. *)
Definition search_result (pg : page) (c : nat) (p : string) (q : list Q) (r : nat)
  : outcome (list (option string)) :=
  if bool_decide (c ∈ closed pg) then Throw DatabaseError
  else match reg_nodes pg, reg_edges pg with
       | Some pn, Some pe => search (mk_dataset pn pe p) q 5 20 r
       | _, _ => Throw DatabaseError
       end.

(** The synchronous start of [performSearch]: [textInput.value] is read,
    [embed] writes "Analysing..." and awaits the encoder. *)
Definition start_search (o : caller) (pg : page) : page :=
  spawn o (Embedding (text_value pg)) (set_status Analysing pg).

(** The synchronous start of [loadIndex]:
    [if (path.value !== cachedPath) cachedPath = path.value], then
    "Loading HNSW Index...". *)
Definition start_load (pg : page) : page :=
  set_status LoadingIndex
    (if bool_decide (path_value pg = cachedPath pg) then pg
     else set_cachedPath (path_value pg) pg).

(** The code after the [await] of a call that returned: [search] is
    enabled again, or the [blogs] handler writes its message. *)
Definition after_return (o : caller) (pg : page) : page :=
  match o with
  | FromStartup | FromSearchButton | FromFrankenstein => set_search_disabled false pg
  | FromBlogs => set_status BiggerDataset pg
  | FromInput | FromShakespeare => pg
  end.

(** The call [i] returns, and its caller resumes. *)
Definition finish (i : nat) (o : caller) (pg : page) : page :=
  after_return o (set_tasks (delete i (tasks pg)) pg).

(** The call [i] throws: the promise of the handler rejects and the code
    after its [await] never runs. *)
Definition reject (i : nat) (pg : page) : page :=
  set_tasks (delete i (tasks pg)) pg.

(** [if (conn == null) conn = await db.connect();] and the call of
    [searchWithSql] with [cachedPath], which writes "Searching HNSW
    Index..." before its first [await]. *)
Definition to_search (i : nat) (o : caller) (q : list Q) (pg : page) : page :=
  match conn pg with
  | None => set_pc pg i o (Connecting q)
  | Some c => set_pc (set_status SearchingIndex pg) i o (Searching q c (cachedPath pg))
  end.

(** The operation task [i], suspended in [t], awaits completes, and the
    task runs to its next [await]. *)
Definition resume_task (i r : nat) (t : task) (pg : page) : option page :=
  let o := origin t in
  match pc t with
  | Embedding text =>
      let q := enc text in
      let pg0 := set_status SearchingText pg in
      if bool_decide (path_value pg0 = cachedPath pg0) then Some (to_search i o q pg0)
      else
        let pg1 := set_cachedPath (path_value pg0) pg0 in
        match conn pg1 with
        | Some c => Some (set_pc pg1 i o (Closing q c))
        | None => Some (set_pc (start_load pg1) i o (Loading (Some q) LoadConnect))
        end
  | Closing q c =>
      let pg1 := set_closed ({[c]} ∪ closed pg) pg in
      Some (set_pc (start_load pg1) i o (Loading (Some q) LoadConnect))
  | Loading tq LoadConnect =>
      let '(c, pg1) := connect pg in
      let pg2 := set_conn (Some c) pg1 in
      Some (set_pc pg2 i o (Loading tq (LoadNodes (cachedPath pg2))))
  | Loading tq (LoadNodes p) =>
      let pg1 := set_reg_nodes (Some p) pg in
      Some (set_pc pg1 i o (Loading tq (LoadEdges (cachedPath pg1))))
  | Loading tq (LoadEdges p) =>
      let pg1 := set_status ReadyForUser (set_reg_edges (Some p) pg) in
      match tq with
      | Some q => Some (to_search i o q pg1)
      | None => Some (finish i o pg1)
      end
  | Connecting q =>
      let '(c, pg1) := connect pg in
      let pg2 := set_status SearchingIndex (set_conn (Some c) pg1) in
      Some (set_pc pg2 i o (Searching q c (cachedPath pg2)))
  | Searching q c p =>
      match search_result pg c p q r with
      | Ret texts => Some (finish i o (set_output (Some texts) (set_status ReadyForUser pg)))
      | _ => Some (reject i pg)
      end
  end.

Definition resume (i r : nat) (pg : page) : option page :=
  match tasks pg !! i with
  | None => None
  | Some t => resume_task i r t pg
  end.

(** One event; [None] when it cannot happen (a click on a disabled
    button, a timer that is not pending, a task that does not exist). *)
Definition exec (pg : page) (e : event) : option page :=
  match e with
  | TypeText s =>
      let pg1 := set_text_value s pg in
      Some (if instant pg1 && negb (search_disabled pg1) then set_timer true pg1 else pg1)
  | SetPath s => Some (set_path_value s pg)
  | SetInstant b => Some (set_instant b pg)
  | TimerFires =>
      if timer pg then Some (start_search FromInput (set_timer false pg)) else None
  | ClickSearch =>
      if search_disabled pg then None
      else Some (start_search FromSearchButton (set_search_disabled true pg))
  | ClickBlogs =>
      let pg1 := set_text_value "falling in love" (set_instant false (set_path_value "blogs" pg)) in
      Some (spawn FromBlogs (Loading None LoadConnect) (start_load pg1))
  | ClickFrankenstein =>
      let pg1 := set_text_value "in the ocean"
                   (set_path_value "frankenstein" (set_instant true pg)) in
      Some (start_search FromFrankenstein pg1)
  | ClickShakespeare =>
      let pg1 := set_text_value "got some blood on their hands"
                   (set_path_value "shakespeare" pg) in
      Some (start_search FromShakespeare pg1)
  | Resume i r => resume i r pg
  | Fail i => match tasks pg !! i with Some _ => Some (reject i pg) | None => None end
  end.

Fixpoint run (pg : page) (es : list event) : option page :=
  match es with
  | [] => Some pg
  | e :: es' => match exec pg e with Some pg' => run pg' es' | None => None end
  end.

(** The page when the module's prologue has run: the globals set
    ([instantMode.checked = true], [cachedPath] empty, [conn = null]), the
    extractor loaded ("Loading embedding model...", then "Ready for
    user!"), a fresh DuckDB instance with no connection and no file, and
    the final [await performSearch()] suspended in [embed], which wrote
    "Analysing...". *)
Definition init_page (path0 text0 : string) (disabled0 : bool) : page :=
  {| path_value := path0; text_value := text0; instant := true; search_disabled := disabled0;
     timer := false; cachedPath := EmptyString; conn := None; next_conn := 0%nat; closed := ∅;
     reg_nodes := None; reg_edges := None; output := None;
     tasks := {[0%nat := {| origin := FromStartup; pc := Embedding text0 |}]}; next_task := 1%nat;
     status := Analysing |}.

(** ** Invariants of the page *)

(** The node and edge files registered are those of [cachedPath]. *)
Definition loaded (pg : page) : Prop :=
  reg_nodes pg = Some (cachedPath pg) /\ reg_edges pg = Some (cachedPath pg).

(** [conn] is an open connection, and every connection opened so far has
    a number below [next_conn]. *)
Definition conns_ok (pg : page) : Prop :=
  (forall c, conn pg = Some c -> (c < next_conn pg)%nat /\ c ∉ closed pg) /\
  (forall c, c ∈ closed pg -> (c < next_conn pg)%nat).

(** What [output] shows after a search that gave [res]. *)
Definition shown (res : outcome (list (option string))) (old : option (list (option string)))
  : option (list (option string)) :=
  match res with Ret texts => Some texts | _ => old end.

Lemma run_cons pg e es pg' : exec pg e = Some pg' -> run pg (e :: es) = run pg' es.
Proof. simpl. by intros ->. Qed.

Lemma run_app pg es1 es2 :
  run pg (es1 ++ es2) = match run pg es1 with Some pg' => run pg' es2 | None => None end.
Proof.
  revert pg. induction es1 as [|e es1 IH]; intros pg; [done|]. cbn.
  destruct (exec pg e); [apply IH | done].
Qed.

Lemma exec_Resume pg i r t :
  tasks pg !! i = Some t -> exec pg (Resume i r) = resume_task i r t pg.
Proof. intros Ht. cbn [exec]. unfold resume. by rewrite Ht. Qed.

Lemma exec_Fail pg i t :
  tasks pg !! i = Some t -> exec pg (Fail i) = Some (reject i pg).
Proof. intros Ht. cbn [exec]. by rewrite Ht. Qed.
End Session.

(** ** The page of [vectordb_utils_quantized.js]

    Its [embed], [loadIndex], [performSearch], the handlers and the
    debounce are those of [vectordb_utils.js] line for line, but for the
    names of the files: [loadIndex] registers
    [`${cachedPath}/nodes_quantized.parquet`] and
    [`${cachedPath}/edges_quantized.parquet`] (so [nodes_of p] are the
    int8 rows of the former) and [searchWithSql] reads
    [docs_quantized.parquet].  Its [searchWithSql] is
    [searchWithSql_quantized]. *)
Definition exec_quantized (enc : string -> list Q) (nodes_of : string -> list (Z * list Z))
    (edges_of : string -> list edge) (docs_of : string -> list string) :=
  exec enc nodes_of edges_of docs_of searchWithSql_quantized.

Definition run_quantized (enc : string -> list Q) (nodes_of : string -> list (Z * list Z))
    (edges_of : string -> list edge) (docs_of : string -> list string) :=
  run enc nodes_of edges_of docs_of searchWithSql_quantized.

(** Symbolic execution of the page: unfold the operations and reduce the
    field reads, look the resumed task up, and settle the tests whose
    outcome a hypothesis gives. *)
Ltac sess_unfold :=
  cbv beta iota zeta delta [start_search spawn set_pc to_search finish reject after_return
    start_load connect search_result set_path_value set_text_value set_instant
    set_search_disabled set_timer set_cachedPath set_conn set_next_conn set_closed
    set_reg_nodes set_reg_edges set_output set_tasks set_next_task set_status
    path_value text_value instant search_disabled timer cachedPath conn next_conn closed
    reg_nodes reg_edges output tasks next_task status origin pc shown andb negb].

Ltac sess_decide :=
  repeat match goal with
  | |- context [bool_decide ?P] =>
      first [rewrite (bool_decide_true P) by first [reflexivity | assumption]
            |rewrite (bool_decide_false P) by assumption]
  end.

(** [tasks !! i] in a map built by [spawn], [set_pc] and [finish]. *)
Ltac sess_lookup :=
  repeat first [rewrite lookup_delete_ne by lia | rewrite lookup_insert_ne by lia];
  apply lookup_insert_eq.

Ltac sess_exec :=
  lazymatch goal with
  | |- exec _ _ _ _ _ _ (Resume _ _) = _ =>
      erewrite exec_Resume; [|sess_unfold; sess_lookup];
      cbv beta iota zeta delta [resume_task]
  | |- exec _ _ _ _ _ _ (Fail _) = _ =>
      erewrite exec_Fail; [|sess_unfold; sess_lookup]
  | |- _ => cbv beta iota zeta delta [exec]
  end;
  sess_unfold; sess_decide;
  repeat match goal with
  | H : ?f ?d ?q ?k ?e ?r = _ |- context [?f ?d ?q ?k ?e ?r] => rewrite H
  end; cbv beta iota.

(** One event of [run]. *)
Ltac sess_step := erewrite run_cons; [|sess_exec; reflexivity].

(** The end of [run]: the state reached, its fields read off. *)
Ltac sess_done :=
  cbn [run]; eexists; split; [reflexivity|]; sess_unfold;
  rewrite ?delete_insert_eq, ?delete_empty.

(** The map of pending calls is empty once every call has ended. *)
Ltac tasks_empty :=
  apply map_eq; intros j; rewrite lookup_empty;
  rewrite ?lookup_delete, ?lookup_insert, ?lookup_empty;
  repeat case_decide; simplify_eq; try done; lia.

(** [conns_ok] after connections were opened and closed. *)
Ltac conns_solve Hcl :=
  split_and!; try reflexivity;
  try (intros ? [= <-]; split; [lia | assumption]);
  try (intros ? ?%Hcl; lia);
  try (intros ? [->%elem_of_singleton | ?%Hcl]%elem_of_union; lia).
