(* ===== verification/Schedules.v ===== *)
(** * Schedules of the page: what every interleaving of the handlers does

    The theorems on the step function [exec] of [Session], for an encoder
    [enc], the files [nodes_of], [edges_of], [docs_of] of each path and the
    [searchWithSql] of the page as Section variables.

    Theorems: a search on an idle page run alone shows the result of
    [searchWithSql] on the dataset of [path.value]
    ([click_search_sequential]); three schedules of overlapping calls show
    a stale result ([stale_result_overwrites]), a search on a closed
    connection ([dataset_switch_closes_pending]) and a search on one
    dataset's graph with another's documents
    ([blogs_load_mixes_datasets]); a search from the button that throws
    disables the page for good ([search_button_stays_disabled]), and so
    does a fetch that rejects during the load of a new path, leaving the
    status at "Loading HNSW Index..." and [cachedPath] naming a path whose
    files were never registered ([load_failure_strands_page]); the
    debounce starts one search for a burst of typing
    ([debounce_coalesces]), and a search it armed still fires after the
    [blogs] link turned instant mode off ([blogs_keeps_pending_search]).

    Section [QueryBlind]: two runs of the page with encoders whose vectors
    are related by [R], where [searchWithSql] cannot tell related queries
    apart, are bisimilar ([page_rel]: equal but for the queries pending
    calls hold); on the quantized page [R] is equality after
    [quantizeVector], so the page is blind to what quantization forgets
    ([quantized_page_query_blind]). *)

From stdpp Require Import strings gmap.
From S2P Require Import Prelude Quantize GraphStore Pages Session.

Section Schedules.

Context {V : Type}.
Variable enc : string -> list Q.
Variable nodes_of : string -> list (Z * V).
Variable edges_of : string -> list edge.
Variable docs_of : string -> list string.
Variable search : dataset V -> list Q -> nat -> nat -> nat -> outcome (list (option string)).

#[local] Abbreviation mk_dataset := (Session.mk_dataset nodes_of edges_of docs_of).
#[local] Abbreviation search_result := (Session.search_result nodes_of edges_of docs_of search).
#[local] Abbreviation resume_task := (Session.resume_task enc nodes_of edges_of docs_of search).
#[local] Abbreviation resume := (Session.resume enc nodes_of edges_of docs_of search).
#[local] Abbreviation exec := (Session.exec enc nodes_of edges_of docs_of search).
#[local] Abbreviation run := (Session.run enc nodes_of edges_of docs_of search).

(** ** A search on an idle page *)

(** C8: a click on [search] on an idle page, the call of [performSearch]
    left to run alone, ends with no call pending, the index of
    [path.value] loaded and the connection open; [output] shows the
    result of [searchWithSql] on the dataset of [path.value], and the
    button is enabled again, and the status reads "Ready for user!",
    when the search returns.  When it throws, [output] is unchanged, the
    button stays disabled and the status keeps reading "Searching HNSW
    Index..." with no call pending. *)
Theorem click_search_sequential pg r :
  tasks pg = ∅ -> search_disabled pg = false -> conns_ok pg ->
  (path_value pg = cachedPath pg -> loaded pg) ->
  let res := search (mk_dataset (path_value pg) (path_value pg) (path_value pg))
               (enc (text_value pg)) 5 20 r in
  exists n pg', run pg (ClickSearch :: repeat (Resume (next_task pg) r) n) = Some pg' /\
    tasks pg' = ∅ /\ cachedPath pg' = path_value pg /\ loaded pg' /\ conns_ok pg' /\
    output pg' = shown res (output pg) /\
    search_disabled pg' = (match res with Ret _ => false | _ => true end) /\
    status pg' = (match res with Ret _ => ReadyForUser | _ => SearchingIndex end).
Proof.
  destruct pg as [pv tv ins dis tm cp cn nc cl rn re out ts nt st]; unfold conns_ok, loaded;
    sess_unfold; intros -> -> [Hc Hcl] Hl.
  destruct (decide (pv = cp)) as [<-|Hne]; [destruct (Hl eq_refl) as [-> ->]|];
    destruct cn as [c|].
  - assert (c < nc /\ c ∉ cl)%nat as [? ?] by (apply Hc; done).
    exists 2%nat; cbn [repeat]. do 2 sess_step.
    destruct (search _ _ _ _ _) eqn:Hs; sess_step; sess_done; conns_solve Hcl.
  - assert (nc ∉ cl) by (intros ?%Hcl; lia).
    exists 3%nat; cbn [repeat]. do 3 sess_step.
    destruct (search _ _ _ _ _) eqn:Hs; sess_step; sess_done; conns_solve Hcl.
  - assert (c < nc /\ c ∉ cl)%nat as [? ?] by (apply Hc; done).
    assert (nc ∉ {[c]} ∪ cl) by (intros [->%elem_of_singleton | ?%Hcl]%elem_of_union; lia).
    exists 6%nat; cbn [repeat]. do 6 sess_step.
    destruct (search _ _ _ _ _) eqn:Hs; sess_step; sess_done; conns_solve Hcl.
  - assert (nc ∉ cl) by (intros ?%Hcl; lia).
    exists 5%nat; cbn [repeat]. do 5 sess_step.
    destruct (search _ _ _ _ _) eqn:Hs; sess_step; sess_done; conns_solve Hcl.
Qed.

(** ** Overlapping calls *)

(** The hypotheses the three schedules below share: an idle page whose
    index of [path.value] is loaded on an open connection. *)
Definition idle_loaded (pg : page) (c : nat) : Prop :=
  tasks pg = ∅ /\ search_disabled pg = false /\ path_value pg = cachedPath pg /\
  loaded pg /\ conn pg = Some c /\ conns_ok pg.

(** C12: two instant searches overlap and the later one completes first:
    [output] shows the result of the later query, then the result of the
    earlier one replaces it, so the page ends showing the answer to a
    query the user has already replaced. *)
Theorem stale_result_overwrites pg c t1 t2 r1 r2 :
  idle_loaded pg c -> instant pg = true -> timer pg = false ->
  let p := path_value pg in
  let res1 := search (mk_dataset p p p) (enc t1) 5 20 r1 in
  let res2 := search (mk_dataset p p p) (enc t2) 5 20 r2 in
  exists pg',
    run pg [TypeText t1; TimerFires; TypeText t2; TimerFires;
            Resume (S (next_task pg)) r2; Resume (S (next_task pg)) r2;
            Resume (next_task pg) r1; Resume (next_task pg) r1] = Some pg' /\
    output pg' = shown res1 (shown res2 (output pg)).
Proof.
  destruct pg as [pv tv ins dis tm cp cn nc cl rn re out ts nt st];
    unfold idle_loaded, loaded, conns_ok; sess_unfold.
  intros (-> & -> & <- & [-> ->] & -> & [Hc Hcl]) -> ->.
  destruct (Hc c eq_refl).
  do 5 sess_step.
  destruct (search _ (enc t2) _ _ _) eqn:H2; sess_step; sess_step;
    (destruct (search _ (enc t1) _ _ _) eqn:H1; sess_step; sess_done; reflexivity).
Qed.

(** C11: a search from the button is waiting for [searchWithSql] when the
    user picks the Shakespeare dataset: that call sees a new path, closes
    the shared connection and loads the other index, so the pending search
    runs its queries on the closed connection and throws.  Its handler
    never reaches [search.disabled = false]: every call has ended, the
    page shows the Shakespeare result, and the search button is still
    disabled. *)
Theorem dataset_switch_closes_pending pg c r :
  idle_loaded pg c -> path_value pg <> "shakespeare" ->
  let q := enc "got some blood on their hands" in
  let i := next_task pg in
  exists pg',
    run pg [ClickSearch; Resume i r; ClickShakespeare; Resume (S i) r; Resume (S i) r;
            Resume i r; Resume (S i) r; Resume (S i) r; Resume (S i) r; Resume (S i) r]
      = Some pg' /\
    tasks pg' = ∅ /\ search_disabled pg' = true /\
    output pg' = shown (search (mk_dataset "shakespeare" "shakespeare" "shakespeare") q 5 20 r)
                       (output pg).
Proof.
  destruct pg as [pv tv ins dis tm cp cn nc cl rn re out ts nt st];
    unfold idle_loaded, loaded, conns_ok; sess_unfold.
  intros (-> & -> & <- & [-> ->] & -> & [Hc Hcl]) Hx.
  destruct (Hc c eq_refl).
  assert ("shakespeare" <> pv) by congruence.
  assert (c ∈ {[c]} ∪ cl) by set_solver.
  assert (nc ∉ {[c]} ∪ cl) by (intros [->%elem_of_singleton | ?%Hcl]%elem_of_union; lia).
  do 9 sess_step.
  destruct (search _ _ _ _ _) eqn:Hs; sess_step; sess_done;
    (split_and!; [tasks_empty | done..]).
Qed.

(** C13: a search from the button is waiting for [searchWithSql] when the
    user picks the blogs dataset, whose handler calls [loadIndex] without
    closing [conn]: it opens a second connection and registers the blogs
    index under [nodes.parquet] and [edges.parquet].  The pending search
    then runs on the blogs graph but reads the documents of the old path,
    so the page shows the texts at the row offsets of blogs node ids in
    the other dataset; the first connection is neither closed nor held by
    [conn] any more. *)
Theorem blogs_load_mixes_datasets pg c r :
  idle_loaded pg c -> path_value pg <> "blogs" ->
  let p := path_value pg in
  let i := next_task pg in
  exists pg',
    run pg [ClickSearch; Resume i r; ClickBlogs; Resume (S i) r; Resume (S i) r;
            Resume (S i) r; Resume i r] = Some pg' /\
    tasks pg' = ∅ /\
    output pg' = shown (search (mk_dataset "blogs" "blogs" p) (enc (text_value pg)) 5 20 r)
                       (output pg) /\
    conn pg' = Some (next_conn pg) /\ c <> next_conn pg /\ c ∉ closed pg'.
Proof.
  destruct pg as [pv tv ins dis tm cp cn nc cl rn re out ts nt st];
    unfold idle_loaded, loaded, conns_ok; sess_unfold.
  intros (-> & -> & <- & [-> ->] & -> & [Hc Hcl]) Hx.
  destruct (Hc c eq_refl).
  assert ("blogs" <> pv) by congruence.
  do 6 sess_step.
  destruct (search _ _ _ _ _) eqn:Hs; sess_step; sess_done;
    (split_and!; [tasks_empty | done | done | lia | done]).
Qed.

(** ** The debounce of instant search *)

(** Typing on an instant page with the button enabled only records the
    text and (re)arms the timer: [clearTimeout] then [setTimeout]. *)
Lemma run_typing pg ts :
  instant pg = true -> search_disabled pg = false -> ts <> [] ->
  run pg (map TypeText ts) = Some (set_timer true (set_text_value (List.last ts EmptyString) pg)).
Proof.
  destruct pg as [pv tv ins dis tm cp cn nc cl rn re out ts0 nt st]; cbn; intros -> -> Hts.
  revert tv tm. induction ts as [|t ts IH]; intros tv tm; [done|].
  cbn [map Session.run Session.exec]. sess_unfold. cbv beta iota.
  destruct ts as [|t' ts']; [done|]. rewrite IH by done. done.
Qed.

(** C15: the debounce coalesces typing: on an instant page with [search]
    enabled, any nonempty run of input events followed by the expiry of
    the timer starts exactly one call of [performSearch], under the next
    call number, which embeds the last text typed; the timer is then
    disarmed, so a second expiry cannot happen. *)
Theorem debounce_coalesces pg ts :
  instant pg = true -> search_disabled pg = false -> ts <> [] ->
  exists pg', run pg (map TypeText ts ++ [TimerFires]) = Some pg' /\
    tasks pg' = <[next_task pg := {| origin := FromInput; pc := Embedding (List.last ts EmptyString) |}]>
                  (tasks pg) /\
    next_task pg' = S (next_task pg) /\ text_value pg' = List.last ts EmptyString /\
    exec pg' TimerFires = None.
Proof.
  intros Hi Hd Hts. rewrite run_app, (run_typing pg ts Hi Hd Hts).
  destruct pg as [pv tv ins dis tm cp cn nc cl rn re out ts0 nt st].
  cbn [Session.run Session.exec]. sess_unfold. cbv beta iota.
  eexists. split_and!; reflexivity.
Qed.

(** C16: a pending debounced search survives the [blogs] link: its handler
    unchecks [instantMode] and sets [textInput.value] but does not clear
    the timer, so when the timer expires [performSearch] runs with the
    text ["falling in love"] on the [blogs] dataset while [loadIndex] of
    the handler is still pending, although the handler's message asks the
    user to hit [search] when ready. *)
Theorem blogs_keeps_pending_search pg :
  timer pg = true ->
  exists pg', run pg [ClickBlogs; TimerFires] = Some pg' /\
    instant pg' = false /\ path_value pg' = "blogs" /\
    tasks pg' !! next_task pg = Some {| origin := FromBlogs; pc := Loading None LoadConnect |} /\
    tasks pg' !! S (next_task pg) = Some {| origin := FromInput; pc := Embedding "falling in love" |}.
Proof.
  destruct pg as [pv tv ins dis tm cp cn nc cl rn re out ts0 nt st]; cbn [timer]; intros ->.
  cbn [Session.run Session.exec]. unfold start_load. sess_unfold.
  destruct (bool_decide _); cbv beta iota; (eexists; split_and!; [reflexivity..| |]);
    sess_unfold; sess_lookup.
Qed.

(** ** Invariants of every schedule *)

(** A resumed call changes the database globals and [output], and then
    either suspends again, returns to its caller or throws: the other
    calls and [search.disabled] are left alone. *)
Lemma resume_task_shape i r t pg pg' :
  resume_task i r t pg = Some pg' ->
  exists pg0,
    ((exists c, pg' = set_pc pg0 i (origin t) c) \/ pg' = finish i (origin t) pg0 \/
     pg' = reject i pg0) /\
    search_disabled pg0 = search_disabled pg /\ tasks pg0 = tasks pg /\
    next_task pg0 = next_task pg /\ timer pg0 = timer pg /\
    instant pg0 = instant pg.
Proof.
  destruct t as [o c]; unfold Session.resume_task, connect, to_search; cbn [origin pc].
  destruct c as [text|q c|tq [|p|p]|q|q c p]; repeat case_match; intros [= <-];
    eexists; (split; [first [left; eexists; reflexivity | right; left; reflexivity
                           | right; right; reflexivity] |]);
    unfold start_load; repeat case_match; split_and!; reflexivity.
Qed.

(** The call an event starts, by the code that awaits it. *)
Definition spawned_by (e : event) (o : caller) : Prop :=
  match e with
  | TimerFires => o = FromInput
  | ClickSearch => o = FromSearchButton
  | ClickBlogs => o = FromBlogs
  | ClickFrankenstein => o = FromFrankenstein
  | ClickShakespeare => o = FromShakespeare
  | _ => False
  end.

Lemma set_pc_lookup pg i o c j t :
  tasks (set_pc pg i o c) !! j = Some t ->
  (j = i /\ origin t = o) \/ (j <> i /\ tasks pg !! j = Some t).
Proof.
  unfold set_pc, set_tasks; cbn [tasks]. rewrite lookup_insert.
  case_decide; [intros [= <-]; by left | by right].
Qed.

Lemma delete_lookup (m : gmap nat task) i j t : delete i m !! j = Some t -> m !! j = Some t.
Proof. rewrite lookup_delete_Some. by intros [_ ?]. Qed.

(** Every call pending after an event was pending before, by the same
    caller, or was started by the event under the next number. *)
Lemma exec_tasks pg e pg' :
  exec pg e = Some pg' ->
  (forall j t', tasks pg' !! j = Some t' ->
     (exists t, tasks pg !! j = Some t /\ origin t' = origin t) \/
     (j = next_task pg /\ spawned_by e (origin t') /\ next_task pg' = S (next_task pg))) /\
  (next_task pg <= next_task pg')%nat.
Proof.
  destruct e as [s|s|b| | | | | |i r|i]; cbn [Session.exec].
  - intros [= <-]. case_match; split; eauto.
  - intros [= <-]. split; eauto.
  - intros [= <-]. split; eauto.
  - case_match; [intros [= <-]|done]. split; [|cbn; lia]. intros j t' [[-> ?]|[_ ?]]%set_pc_lookup; eauto.
  - case_match; [done|intros [= <-]]. split; [|cbn; lia]. intros j t' [[-> ?]|[_ ?]]%set_pc_lookup; eauto.
  - intros [= <-]. unfold start_load. case_match; (split; [|cbn; lia]);
      intros j t' [[-> ?]|[_ ?]]%set_pc_lookup; cbn in *; eauto.
  - intros [= <-]. split; [|cbn; lia]. intros j t' [[-> ?]|[_ ?]]%set_pc_lookup; eauto.
  - intros [= <-]. split; [|cbn; lia]. intros j t' [[-> ?]|[_ ?]]%set_pc_lookup; eauto.
  - unfold Session.resume. destruct (tasks pg !! i) as [t|] eqn:Ht; [|done].
    intros (pg0 & [[c ->]|[->| ->]] & _ & Hts & Hnt & _)%resume_task_shape;
      (split; [|unfold finish, reject, after_return; destruct (origin t); try case_match; cbn; lia]).
    + intros j t' [[-> ->]|[_ ?]]%set_pc_lookup; left; [by eexists|]. rewrite <- Hts; eauto.
    + intros j t'. unfold finish, after_return. destruct (origin t); try case_match; cbn;
        intros ?%delete_lookup; left; rewrite <- Hts; eauto.
    + intros j t'. unfold reject; cbn. intros ?%delete_lookup; left; rewrite <- Hts; eauto.
  - destruct (tasks pg !! i) as [t|] eqn:Ht; [intros [= <-]|done]. split; [|cbn; lia].
    intros j t'. unfold reject; cbn. intros ?%delete_lookup; left; eauto.
Qed.

(** The callers whose code after the [await] enables [search]. *)
Definition enabling (o : caller) : bool :=
  match o with
  | FromStartup | FromSearchButton | FromFrankenstein => true
  | FromInput | FromBlogs | FromShakespeare => false
  end.

Lemma after_return_disabled o pg :
  search_disabled (after_return o pg) =
  if enabling o then false else search_disabled pg.
Proof. destruct o; cbn; try case_match; done. Qed.

(** Only the return of a call whose caller re-enables the button turns
    [search.disabled] from true to false. *)
Lemma exec_enables pg e pg' :
  exec pg e = Some pg' -> search_disabled pg = true -> search_disabled pg' = false ->
  exists i r t, e = Resume i r /\ tasks pg !! i = Some t /\ enabling (origin t) = true.
Proof.
  destruct e as [s|s|b| | | | | |i r|i]; cbn [Session.exec].
  - intros [= <-]. case_match; cbn; congruence.
  - intros [= <-]; cbn; congruence.
  - intros [= <-]; cbn; congruence.
  - case_match; [intros [= <-]|done]; cbn; congruence.
  - case_match; [done|intros [= <-]]; cbn; congruence.
  - intros [= <-]. unfold start_load; case_match; cbn; congruence.
  - intros [= <-]; cbn; congruence.
  - intros [= <-]; cbn; congruence.
  - unfold Session.resume. destruct (tasks pg !! i) as [t|] eqn:Ht; [|done].
    intros (pg0 & [[c ->]|[->| ->]] & Hd & _)%resume_task_shape; intros Hdis.
    + cbn. congruence.
    + unfold finish. rewrite after_return_disabled. cbn. case_match; [|congruence].
      intros _. by exists i, r, t.
    + cbn. congruence.
  - destruct (tasks pg !! i); [intros [= <-]|done]. cbn. congruence.
Qed.

(** The button is disabled, and no pending call will enable it. *)
Definition stuck (pg : page) : Prop :=
  search_disabled pg = true /\
  forall j t, tasks pg !! j = Some t -> enabling (origin t) = false.

Lemma exec_stuck pg e pg' :
  stuck pg -> e <> ClickFrankenstein -> exec pg e = Some pg' -> stuck pg'.
Proof.
  intros [Hd Ht] Hne Hexec. split.
  - destruct (search_disabled pg') eqn:Hd'; [done|].
    destruct (exec_enables _ _ _ Hexec Hd Hd') as (i & r & t & -> & Hi & Hen).
    by rewrite (Ht i t Hi) in Hen.
  - intros j t' Hj. destruct (proj1 (exec_tasks _ _ _ Hexec) j t' Hj)
      as [(t & Hj0 & ->)|(_ & Hsp & _)]; [by apply (Ht j)|].
    destruct e; cbn in Hsp; try done; rewrite Hsp; try done.
    cbn in Hexec. by rewrite Hd in Hexec.
Qed.

(** C9: once the button is disabled with no pending call that would
    enable it (a search from the button that threw leaves the page so),
    it stays so whatever the user does, short of the Frankenstein link:
    a click on [search] is not delivered, and typing does not start an
    instant search either, since the input handler checks
    [!search.disabled]. *)
Theorem search_button_stays_disabled pg es pg' :
  stuck pg -> ClickFrankenstein ∉ es -> run pg es = Some pg' ->
  stuck pg' /\ exec pg' ClickSearch = None /\
  forall s, exec pg' (TypeText s) = Some (set_text_value s pg').
Proof.
  revert pg. induction es as [|e es IH]; intros pg Hs Hf; cbn [Session.run].
  - intros [= <-]. split_and!; [done| |]; cbn; destruct Hs as [-> _]; [done|].
    intros s. by rewrite andb_false_r.
  - destruct (exec pg e) as [pg1|] eqn:He; [|done].
    apply not_elem_of_cons in Hf as [Hne Hf].
    apply IH; [|done]. by apply (exec_stuck pg e).
Qed.
(** ** A storage failure during a load *)

(** C10: a failure of storage while [loadIndex] runs is surfaced nowhere.
    A click on [search] on an idle page whose [path.value] is not the
    loaded path reaches the fetch of the new [nodes.parquet]; when that
    fetch rejects, no handler catches it: no call is pending, the status
    keeps reading "Loading HNSW Index...", the button stays disabled with
    no call left to enable it (so [search_button_stays_disabled] applies
    from there), and [output] is unchanged.  [cachedPath] already names
    the new path while the files registered are still the old ones, so a
    later search of that path does not reload. *)
Theorem load_failure_strands_page pg :
  tasks pg = ∅ -> search_disabled pg = false -> path_value pg <> cachedPath pg ->
  exists k pg1 pg',
    run pg (ClickSearch :: repeat (Resume (next_task pg) 0) k) = Some pg1 /\
    tasks pg1 !! next_task pg = Some {| origin := FromSearchButton;
      pc := Loading (Some (enc (text_value pg))) (LoadNodes (path_value pg)) |} /\
    exec pg1 (Fail (next_task pg)) = Some pg' /\
    tasks pg' = ∅ /\ status pg' = LoadingIndex /\ stuck pg' /\
    cachedPath pg' = path_value pg /\ reg_nodes pg' = reg_nodes pg /\
    reg_edges pg' = reg_edges pg /\ output pg' = output pg.
Proof.
  destruct pg as [pv tv ins dis tm cp cn nc cl rn re out ts nt st]; sess_unfold.
  intros -> -> Hne. destruct cn as [c|]; [exists 3%nat | exists 2%nat]; cbn [repeat];
    [do 4 sess_step | do 3 sess_step]; cbn [run]; do 2 eexists;
    (split; [reflexivity|]); (split; [sess_unfold; sess_lookup|]);
    (split; [sess_exec; reflexivity|]); sess_unfold;
    rewrite !insert_insert_eq, delete_insert_eq, delete_empty; split_and!; try reflexivity;
    (split; [reflexivity | intros j t; cbn [tasks]; by rewrite lookup_empty]).
Qed.

End Schedules.

(** ** Pages that differ only in the encoder *)

Section QueryBlind.

Context {V : Type}.
Variable enc1 enc2 : string -> list Q.
Variable nodes_of : string -> list (Z * V).
Variable edges_of : string -> list edge.
Variable docs_of : string -> list string.
Variable search : dataset V -> list Q -> nat -> nat -> nat -> outcome (list (option string)).
Variable R : list Q -> list Q -> Prop.
Hypothesis HR : forall t, R (enc1 t) (enc2 t).
Hypothesis Hsearch : forall d q q' k ef r, R q q' -> search d q k ef r = search d q' k ef r.

(** The suspension points of two calls agree, their queries related by
    [R]. *)
Definition pc_rel (c1 c2 : task_pc) : Prop :=
  match c1, c2 with
  | Embedding t1, Embedding t2 => t1 = t2
  | Closing q1 c1, Closing q2 c2 => R q1 q2 /\ c1 = c2
  | Loading None l1, Loading None l2 => l1 = l2
  | Loading (Some q1) l1, Loading (Some q2) l2 => R q1 q2 /\ l1 = l2
  | Connecting q1, Connecting q2 => R q1 q2
  | Searching q1 c1 p1, Searching q2 c2 p2 => R q1 q2 /\ c1 = c2 /\ p1 = p2
  | _, _ => False
  end.

(** Two pending calls of the same caller at the same [await]. *)
Definition task_rel (t1 t2 : task) : Prop := origin t1 = origin t2 /\ pc_rel (pc t1) (pc t2).

(** Two pages equal but for the queries their pending calls hold, which
    are related by [R]. *)
Definition page_rel (pg1 pg2 : page) : Prop :=
  set_tasks ∅ pg1 = set_tasks ∅ pg2 /\
  forall i, option_Forall2 task_rel (tasks pg1 !! i) (tasks pg2 !! i).

(** The two runs after one step: the same fields, the pending calls
    related. *)
Ltac rel_close Hts :=
  first [by constructor
        | constructor; split; [reflexivity|]; cbn [tasks]; intros j;
          rewrite ?lookup_delete, ?lookup_insert; repeat case_decide;
          first [apply Hts | by constructor | constructor; split; cbn; split_and?; auto]].

(** The two pages step together: [R] relates the vectors of one text
    under the two encoders, and [searchWithSql] gives the same result on
    related queries. *)
Lemma exec_rel pg1 pg2 e :
  page_rel pg1 pg2 ->
  option_Forall2 page_rel (exec enc1 nodes_of edges_of docs_of search pg1 e)
                          (exec enc2 nodes_of edges_of docs_of search pg2 e).
Proof.
  destruct pg1 as [pv tv ins dis tm cp cn nc cl rn re out ts1 nt st],
           pg2 as [pv' tv' ins' dis' tm' cp' cn' nc' cl' rn' re' out' ts2 nt' st'].
  intros [Heq Hts]. cbv [set_tasks] in Heq. injection Heq as <- <- <- <- <- <- <- <- <- <- <- <- <- <-.
  cbn [tasks] in Hts.
  destruct e as [s|s|b| | | | | |i r|i]; cbn [Session.exec]; unfold Session.resume.
  1-8: sess_unfold; destruct ins, dis, tm; try destruct (bool_decide _); cbv beta iota;
    first [by constructor | constructor; split; [reflexivity|]; cbn [tasks]; intros j;
      rewrite ?lookup_insert; repeat case_decide; first [apply Hts | constructor; split; done]].
  2: { cbn [tasks]. generalize (Hts i). intros Hi.
       destruct (ts1 !! i), (ts2 !! i); inversion Hi; sess_unfold; rel_close Hts. }
  cbn [tasks]. generalize (Hts i). intros Hi.
  destruct (ts1 !! i) as [[o c1]|], (ts2 !! i) as [[o' c2]|]; inversion Hi as [? ? [Ho Hc]|]; subst; [|constructor].
  cbn [origin pc] in Ho, Hc |- *. subst o'. unfold Session.resume_task; cbn [origin pc].
  destruct c1 as [text|q c|[q|] [|p|p]|q|q c p], c2 as [text'|q' c'|[q'|] [|p'|p']|q'|q' c' p']; cbn in Hc; try done.
  all: repeat match goal with H : _ /\ _ |- _ => destruct H end; simplify_eq.
  all: sess_unfold; destruct cn; try destruct (bool_decide (pv = cp)); cbv beta iota.
  all: rewrite ?bool_decide_true by done; try destruct (bool_decide (_ ∈ cl));
    try destruct rn; try destruct re; cbv beta iota;
    try match goal with Hq : R ?q ?q' |- context [search ?d ?q] =>
      rewrite (Hsearch d q q' _ _ _ Hq) end;
    try match goal with |- context [match search ?d ?q ?k ?e ?r with _ => _ end] =>
      destruct (search d q k e r) end;
    repeat match goal with |- context [match ?x with _ => _ end] => is_var x; destruct x end;
    cbv beta iota;
    rel_close Hts.
Qed.

Lemma run_rel pg1 pg2 es :
  page_rel pg1 pg2 ->
  option_Forall2 page_rel (run enc1 nodes_of edges_of docs_of search pg1 es)
                          (run enc2 nodes_of edges_of docs_of search pg2 es).
Proof.
  revert pg1 pg2. induction es as [|e es IH]; intros pg1 pg2 Hrel; cbn [run]; [by constructor|].
  destruct (exec_rel pg1 pg2 e Hrel); [by apply IH | constructor].
Qed.

Lemma page_rel_refl pg : (forall q, R q q) -> page_rel pg pg.
Proof.
  intros Hq. split; [done|]. intros i. destruct (tasks pg !! i) as [[o c]|]; constructor.
  split; [done|]. destruct c as [|? ?|[?|] ?|?|? ? ?]; cbn; auto.
Qed.

Lemma page_rel_fields pg1 pg2 :
  page_rel pg1 pg2 -> output pg1 = output pg2 /\ search_disabled pg1 = search_disabled pg2.
Proof. intros [Heq _]. split; [apply (f_equal output Heq) | apply (f_equal search_disabled Heq)]. Qed.

End QueryBlind.

(** C14: the quantized page sees the query only through [quantizeVector]:
    for two encoders whose vectors of every text quantize to the same
    8-bit array (as [v] and [a * v + b] with [a > 0] do), every schedule
    of events leads from one page to two pages that agree on [output],
    on [search.disabled] and on everything else but the query vectors the
    pending calls hold.  A text and the same text embedded at another
    scale show the same documents. *)
Theorem quantized_page_query_blind enc1 enc2 nodes_of edges_of docs_of pg es :
  (forall t, quantizeVector (enc1 t) 8 = quantizeVector (enc2 t) 8) ->
  option_Forall2
    (fun pg1 pg2 => output pg1 = output pg2 /\ search_disabled pg1 = search_disabled pg2 /\
       page_rel (fun q q' => quantizeVector q 8 = quantizeVector q' 8) pg1 pg2)
    (run_quantized enc1 nodes_of edges_of docs_of pg es)
    (run_quantized enc2 nodes_of edges_of docs_of pg es).
Proof.
  intros Henc.
  assert (Hsearch : forall d q q' k ef r, quantizeVector q 8 = quantizeVector q' 8 ->
            searchWithSql_quantized d q k ef r = searchWithSql_quantized d q' k ef r).
  { intros d q q' k ef r Hq. unfold searchWithSql_quantized. by rewrite Hq. }
  unfold run_quantized.
  destruct (run_rel enc1 enc2 nodes_of edges_of docs_of _ _ Henc Hsearch pg pg es
              (page_rel_refl _ pg (fun q => eq_refl))) as [pg1 pg2 Hrel|]; constructor.
  destruct (page_rel_fields _ _ _ Hrel). by split_and!.
Qed.

(** ** The page on the spec's four-node graph *)

(** Every path serves the graph of [spec_tables] and four documents; the
    encoder maps "falling in love" to [[5, 5]] and every other text to the
    origin. *)
Definition demo_enc (s : string) : list Q :=
  if bool_decide (s = "falling in love") then [5; 5] else [0; 0].
Definition demo_nodes (p : string) : list (Z * list Q) := node_rows spec_tables.
Definition demo_edges (p : string) : list edge := edge_rows spec_tables.
Definition demo_docs (p : string) : list string := ["zero"; "one"; "two"; "three"].

(** The page after a first search of the Frankenstein dataset. *)
Definition demo_page : page := {|
  path_value := "frankenstein"; text_value := "in the ocean"; instant := true;
  search_disabled := false; timer := false; cachedPath := "frankenstein";
  conn := Some 0%nat; next_conn := 1%nat; closed := ∅;
  reg_nodes := Some "frankenstein"; reg_edges := Some "frankenstein";
  output := None; tasks := ∅; next_task := 1%nat; status := ReadyForUser |}.

Lemma demo_page_conns : conns_ok demo_page.
Proof. split; cbn; [intros c [= <-]; split; [lia | set_solver] | set_solver]. Qed.

Lemma demo_page_idle : idle_loaded demo_page 0.
Proof. split_and!; try reflexivity; [split; reflexivity | apply demo_page_conns]. Qed.

Definition demo_run := run demo_enc demo_nodes demo_edges demo_docs searchWithSql_plain.
Definition demo_exec := exec demo_enc demo_nodes demo_edges demo_docs searchWithSql_plain.

Definition demo_result : option (list (option string)) :=
  Some [Some "zero"; Some "one"; Some "two"; Some "three"].

Lemma click_search_sequential_witness :
  exists n pg', demo_run demo_page (ClickSearch :: repeat (Resume 1 0) n) = Some pg' /\
    tasks pg' = ∅ /\ loaded pg' /\ conns_ok pg' /\ output pg' = demo_result /\
    search_disabled pg' = false /\ status pg' = ReadyForUser.
Proof.
  destruct (click_search_sequential demo_enc demo_nodes demo_edges demo_docs searchWithSql_plain
              demo_page 0 eq_refl eq_refl demo_page_conns (fun _ => conj eq_refl eq_refl))
    as (n & pg' & Hrun & Ht & _ & Hl & Hc & Ho & Hd & Hst).
  exists n, pg'. split_and!; try done; (rewrite Ho || rewrite Hd || rewrite Hst); vm_compute;
    reflexivity.
Defined.

Lemma stale_result_overwrites_witness :
  exists pg', demo_run demo_page [TypeText "in the ocean"; TimerFires; TypeText "falling in love";
                                  TimerFires; Resume 2 0; Resume 2 0; Resume 1 0; Resume 1 0]
              = Some pg' /\ output pg' = demo_result.
Proof.
  destruct (stale_result_overwrites demo_enc demo_nodes demo_edges demo_docs searchWithSql_plain
              demo_page 0 "in the ocean" "falling in love" 0 0 demo_page_idle eq_refl eq_refl)
    as (pg' & Hrun & Ho).
  exists pg'. split; [exact Hrun|]. rewrite Ho. vm_compute. reflexivity.
Defined.

Lemma dataset_switch_closes_pending_witness :
  exists pg', demo_run demo_page [ClickSearch; Resume 1 0; ClickShakespeare; Resume 2 0; Resume 2 0;
                                  Resume 1 0; Resume 2 0; Resume 2 0; Resume 2 0; Resume 2 0]
              = Some pg' /\ tasks pg' = ∅ /\ search_disabled pg' = true /\ output pg' = demo_result.
Proof.
  destruct (dataset_switch_closes_pending demo_enc demo_nodes demo_edges demo_docs
              searchWithSql_plain demo_page 0 0 demo_page_idle ltac:(discriminate))
    as (pg' & Hrun & Ht & Hd & Ho).
  exists pg'. split_and!; try done; rewrite Ho; vm_compute; reflexivity.
Defined.

Lemma blogs_load_mixes_datasets_witness :
  exists pg', demo_run demo_page [ClickSearch; Resume 1 0; ClickBlogs; Resume 2 0; Resume 2 0;
                                  Resume 2 0; Resume 1 0] = Some pg' /\
    output pg' = demo_result /\ conn pg' = Some 1%nat /\ 0%nat ∉ closed pg'.
Proof.
  destruct (blogs_load_mixes_datasets demo_enc demo_nodes demo_edges demo_docs
              searchWithSql_plain demo_page 0 0 demo_page_idle ltac:(discriminate))
    as (pg' & Hrun & _ & Ho & Hc & _ & Hcl).
  exists pg'. split_and!; try done; rewrite Ho; vm_compute; reflexivity.
Defined.

Lemma search_button_stays_disabled_witness :
  exists pg', demo_run (set_search_disabled true demo_page) [TypeText "x"; ClickShakespeare]
              = Some pg' /\ stuck pg' /\ demo_exec pg' ClickSearch = None.
Proof.
  destruct (demo_run (set_search_disabled true demo_page) [TypeText "x"; ClickShakespeare])
    as [pg'|] eqn:E; [|vm_compute in E; discriminate].
  assert (Hs : stuck (set_search_disabled true demo_page)).
  { split; [reflexivity|]. intros j t. cbn. by rewrite lookup_empty. }
  assert (Hf : ClickFrankenstein ∉ [TypeText "x"; ClickShakespeare]).
  { rewrite !elem_of_cons, elem_of_nil. intros [?|[?|[]]]; discriminate. }
  destruct (search_button_stays_disabled demo_enc demo_nodes demo_edges demo_docs
              searchWithSql_plain _ _ _ Hs Hf E) as (Hs' & Hc & _).
  by exists pg'.
Defined.

(** ** The quantized page on two opposite int8 vectors *)

Definition qdemo_nodes (p : string) : list (Z * list Z) :=
  [(0%Z, [-127; 127]%Z); (1%Z, [127; -127]%Z)].
Definition qdemo_edges (p : string) : list edge := [edge0 0 1; edge0 1 0].
Definition qdemo_docs (p : string) : list string := ["aligned"; "opposite"].

Lemma quantized_page_query_blind_witness :
  option_Forall2
    (fun pg1 pg2 => output pg1 = output pg2 /\ search_disabled pg1 = search_disabled pg2 /\
       page_rel (fun q q' => quantizeVector q 8 = quantizeVector q' 8) pg1 pg2)
    (run_quantized (fun _ => [0; 1]) qdemo_nodes qdemo_edges qdemo_docs demo_page
       [ClickSearch; Resume 1 0; Resume 1 0])
    (run_quantized (fun _ => [0; 2]) qdemo_nodes qdemo_edges qdemo_docs demo_page
       [ClickSearch; Resume 1 0; Resume 1 0]).
Proof. apply quantized_page_query_blind. intros t. vm_compute. reflexivity. Defined.

Lemma debounce_coalesces_witness :
  exists pg', demo_run demo_page (map TypeText ["o"; "oc"] ++ [TimerFires]) = Some pg' /\
    tasks pg' = <[next_task demo_page := {| origin := FromInput; pc := Embedding "oc" |}]>
                  (tasks demo_page) /\
    next_task pg' = S (next_task demo_page) /\ text_value pg' = "oc" /\
    demo_exec pg' TimerFires = None.
Proof.
  apply (debounce_coalesces demo_enc demo_nodes demo_edges demo_docs searchWithSql_plain
           demo_page ["o"; "oc"]); [reflexivity | reflexivity | discriminate].
Defined.

Lemma blogs_keeps_pending_search_witness :
  exists pg', demo_run (set_timer true demo_page) [ClickBlogs; TimerFires] = Some pg' /\
    instant pg' = false /\ path_value pg' = "blogs" /\
    tasks pg' !! 1%nat = Some {| origin := FromBlogs; pc := Loading None LoadConnect |} /\
    tasks pg' !! 2%nat = Some {| origin := FromInput; pc := Embedding "falling in love" |}.
Proof.
  apply (blogs_keeps_pending_search demo_enc demo_nodes demo_edges demo_docs searchWithSql_plain
           (set_timer true demo_page)); reflexivity.
Defined.

Lemma load_failure_strands_page_witness :
  exists k pg1 pg',
    demo_run (set_path_value "shakespeare" demo_page)
      (ClickSearch :: repeat (Resume (next_task demo_page) 0) k) = Some pg1 /\
    tasks pg1 !! next_task demo_page = Some {| origin := FromSearchButton;
      pc := Loading (Some (demo_enc (text_value demo_page))) (LoadNodes "shakespeare") |} /\
    demo_exec pg1 (Fail (next_task demo_page)) = Some pg' /\
    tasks pg' = ∅ /\ status pg' = LoadingIndex /\ stuck pg' /\
    cachedPath pg' = "shakespeare" /\ reg_nodes pg' = Some "frankenstein" /\
    reg_edges pg' = Some "frankenstein" /\ output pg' = output demo_page.
Proof.
  apply (load_failure_strands_page demo_enc demo_nodes demo_edges demo_docs searchWithSql_plain
           (set_path_value "shakespeare" demo_page)); [reflexivity | reflexivity | discriminate].
Defined.
